(** * MIOpen adapters for Local Response Normalization

    A shallow embedding of
    [caffe2/operators/hip/local_response_normalization_op_miopen.cc]:
    the forward operator [MIOPEN_LRNOP], the gradient operator
    [MIOPENLRNGradientOp] and their registration.

    The two operators are adapters around the MIOpen library.  The library
    and the HIP runtime are opaque: they are the fields of the class
    [Platform], together with the one choice of the framework that the
    source leaves open, and every statement below holds for every instance
    of it.
    Methods are programs of a state-and-exception monad over the fields of
    the operator object and the world around it (the operator's blobs, the
    device memory, the state of the library and the log of the calls made
    into it). *)

From Stdlib Require Import ZArith String List Lia.
From stdpp Require Import base option list gmap strings.

Local Open Scope string_scope.
Local Open Scope list_scope.
Local Open Scope Z_scope.

(** ** Vendor types *)

(** The enumerations and handle types of [miopen.h] and [hip_runtime.h] are
    not in the source tree.  Status codes are integers, success is zero;
    descriptors and handles are opaque addresses. *)

(** Modelled from the spec: [miopenStatus_t] of [miopen.h], the error code
    of a library call. *)
Definition miopenStatus_t := Z.

(** Modelled from the spec: [miopenStatusSuccess] of [miopen.h]. *)
Definition miopenStatusSuccess : miopenStatus_t := 0.

(** Modelled from the spec: [hipError_t] of [hip_runtime.h]. *)
Definition hipError_t := Z.

(** Modelled from the spec: [hipSuccess] of [hip_runtime.h]. *)
Definition hipSuccess : hipError_t := 0.

(** Modelled from the spec: the handle and descriptor types of [miopen.h],
    pointers to objects of the library. *)
Definition miopenHandle_t := Z.
Definition miopenTensorDescriptor_t := Z.
Definition miopenLRNDescriptor_t := Z.

(** Modelled from the spec: the LRN modes and the element types of
    [miopen.h]; [miopenTypeWrapper<float>::type] is [miopenFloat]. *)
Inductive miopenLRNMode_t := miopenLRNWithinChannel | miopenLRNCrossChannel.
Inductive miopenDataType_t := miopenHalf | miopenFloat.

#[global] Instance miopenLRNMode_eq_dec : EqDecision miopenLRNMode_t.
Proof. solve_decision. Defined.
#[global] Instance miopenDataType_eq_dec : EqDecision miopenDataType_t.
Proof. solve_decision. Defined.

(** ** Tensors, blobs and device pointers *)

(** The element type a tensor carries ([TypeMeta]). *)
Inductive TypeMeta :=
  | meta_uninitialized | meta_float | meta_double | meta_half
  | meta_int32 | meta_int64.

#[global] Instance TypeMeta_eq_dec : EqDecision TypeMeta.
Proof. solve_decision. Defined.

(** The host-side part of a tensor: its shape and its element type.  The
    elements live in device memory, see [ptr]. *)
Record Tensor := { dims : list Z; meta : TypeMeta }.

(** The operator reaches its tensors by reference, through [Input(i)] and
    [Output(i)].  The registered schemas of LRN and LRNGradient allow no
    in-place computation, so input and output blobs are distinct objects. *)
Inductive blob := InputBlob (i : nat) | OutputBlob (i : nat).

#[global] Instance blob_eq_dec : EqDecision blob.
Proof. solve_decision. Defined.

(** A device pointer: a raw address (as handed out by [hipMalloc]; address 0
    is [nullptr]) or the storage of one of the operator's tensors. *)
Inductive ptr := device (a : Z) | data_of (b : blob).

Definition nullptr : ptr := device 0.

#[global] Instance ptr_eq_dec : EqDecision ptr.
Proof. solve_decision. Defined.

Definition ptr_code (p : ptr) : Z + (nat + nat) :=
  match p with
  | device a => inl a
  | data_of (InputBlob i) => inr (inl i)
  | data_of (OutputBlob i) => inr (inr i)
  end.

Definition ptr_decode (c : Z + (nat + nat)) : ptr :=
  match c with
  | inl a => device a
  | inr (inl i) => data_of (InputBlob i)
  | inr (inr i) => data_of (OutputBlob i)
  end.

#[global] Instance ptr_countable : Countable ptr.
Proof.
  refine (inj_countable' ptr_code ptr_decode _).
  intros [a|[i|i]]; reflexivity.
Defined.

(** [&bwdLRNWs_] and [&bwdLRNScratch_]: the two members [hipMalloc] is asked
    to fill. *)
Inductive member := addr_bwdLRNWs | addr_bwdLRNScratch.

#[global] Instance member_eq_dec : EqDecision member.
Proof. solve_decision. Defined.

(** ** The integer types of the source *)

(** An [int] is a 32-bit two's-complement integer. *)
Definition INT_MIN : Z := -2147483648.
Definition INT_MAX : Z := 2147483647.

Definition fits_int (v : Z) : Prop := INT_MIN ≤ v ≤ INT_MAX.

#[global] Instance fits_int_dec (v : Z) : Decision (fits_int v).
Proof. unfold fits_int. apply _. Defined.

(** The conversion of a wider integer to [int]: the low 32 bits, read as a
    signed number. *)
Definition to_int (v : Z) : Z := (v + 2 ^ 31) mod 2 ^ 32 - 2 ^ 31.

(** The conversion of an [int] to [unsigned int]: the value modulo 2^32. *)
Definition to_unsigned_int (v : Z) : Z := v mod 2 ^ 32.

Arguments to_int : simpl never.
Arguments to_unsigned_int : simpl never.

(** ** The platform: MIOpen and the HIP runtime *)

(** Everything the adapters do not own.  [float] is the type of the scalar
    hyperparameters and [buffer] the content of a device allocation; the
    adapters never look inside either.  Each library function is a
    transition of the library's own state [lib_state] (the field [lib_f]
    for the C function [f]).  An argument the C
    prototype passes as [const void*] is read through the memory snapshot; a
    [void*] argument is written by returning its new content ([None]: left
    as it was).  The arguments are the values the library receives, in the
    types of its prototypes: the window size of an LRN descriptor is an
    [unsigned int], the dimensions of a tensor descriptor are [int]s, a size
    in bytes is a [size_t].

    The last field is the one thing left open about the framework:
    [OperatorBase::GetSingleArgument<int>] is not in the source tree, and
    whether it rejects a stored 64-bit value that does not fit an [int] or
    truncates it is not for this file to say. *)
Class Platform := {
  float : Type;
  float_of_int : Z → float;
  buffer : Type;
  lib_state : Type;
  lib_miopenCreateTensorDescriptor :
    lib_state → miopenStatus_t * miopenTensorDescriptor_t * lib_state;
  lib_miopenCreateLRNDescriptor :
    lib_state → miopenStatus_t * miopenLRNDescriptor_t * lib_state;
  lib_miopenSetLRNDescriptor :
    miopenLRNDescriptor_t → miopenLRNMode_t → Z → float → float → float →
    lib_state → miopenStatus_t * lib_state;
  lib_miopenSet4dTensorDescriptor :
    miopenTensorDescriptor_t → miopenDataType_t → Z → Z → Z → Z →
    lib_state → miopenStatus_t * lib_state;
  lib_miopenDestroyTensorDescriptor :
    miopenTensorDescriptor_t → lib_state → miopenStatus_t * lib_state;
  lib_miopenDestroyLRNDescriptor :
    miopenLRNDescriptor_t → lib_state → miopenStatus_t * lib_state;
  lib_miopenLRNGetWorkSpaceSize :
    miopenTensorDescriptor_t → lib_state → miopenStatus_t * Z * lib_state;
  (* handle, lrnDesc, alpha, xDesc, x, beta, yDesc, y, do_backward, workSpace;
     returns the status and what it wrote to y and to workSpace *)
  lib_miopenLRNForward :
    miopenHandle_t → miopenLRNDescriptor_t → float →
    miopenTensorDescriptor_t → ptr → float →
    miopenTensorDescriptor_t → ptr → bool → ptr →
    gmap ptr buffer → lib_state →
    miopenStatus_t * option buffer * option buffer * lib_state;
  (* handle, lrnDesc, alpha, yDesc, y, dyDesc, dy, xDesc, x, beta, dxDesc, dx,
     workSpace; returns the status and what it wrote to dx *)
  lib_miopenLRNBackward :
    miopenHandle_t → miopenLRNDescriptor_t → float →
    miopenTensorDescriptor_t → ptr → miopenTensorDescriptor_t → ptr →
    miopenTensorDescriptor_t → ptr → float →
    miopenTensorDescriptor_t → ptr → ptr →
    gmap ptr buffer → lib_state →
    miopenStatus_t * option buffer * lib_state;
  (* size; returns the status and the address stored through the first
     argument *)
  lib_hipMalloc : Z → lib_state → hipError_t * Z * lib_state;
  lib_hipFree : ptr → lib_state → hipError_t * lib_state;
  rejects_lossy_arguments : bool;
}.

(** ** The log of calls *)

(** One entry per call into MIOpen or HIP: the arguments as passed, what
    came back through out-parameters, and the returned status (last). *)
Inductive event `{Platform} :=
  | call_CreateTensorDescriptor
      (out : miopenTensorDescriptor_t) (st : miopenStatus_t)
  | call_CreateLRNDescriptor
      (out : miopenLRNDescriptor_t) (st : miopenStatus_t)
  | call_SetLRNDescriptor
      (d : miopenLRNDescriptor_t) (mode : miopenLRNMode_t) (n : Z)
      (alpha beta k : float) (st : miopenStatus_t)
  | call_Set4dTensorDescriptor
      (d : miopenTensorDescriptor_t) (ty : miopenDataType_t) (n c h w : Z)
      (st : miopenStatus_t)
  | call_DestroyTensorDescriptor
      (d : miopenTensorDescriptor_t) (st : miopenStatus_t)
  | call_DestroyLRNDescriptor
      (d : miopenLRNDescriptor_t) (st : miopenStatus_t)
  | call_LRNGetWorkSpaceSize
      (d : miopenTensorDescriptor_t) (out : Z) (st : miopenStatus_t)
  | call_LRNForward
      (h : miopenHandle_t) (norm : miopenLRNDescriptor_t) (alpha : float)
      (xDesc : miopenTensorDescriptor_t) (x : ptr) (beta : float)
      (yDesc : miopenTensorDescriptor_t) (y : ptr) (do_backward : bool)
      (workSpace : ptr) (st : miopenStatus_t)
  | call_LRNBackward
      (h : miopenHandle_t) (norm : miopenLRNDescriptor_t) (alpha : float)
      (yDesc : miopenTensorDescriptor_t) (y : ptr)
      (dyDesc : miopenTensorDescriptor_t) (dy : ptr)
      (xDesc : miopenTensorDescriptor_t) (x : ptr) (beta : float)
      (dxDesc : miopenTensorDescriptor_t) (dx : ptr) (workSpace : ptr)
      (st : miopenStatus_t)
  | call_hipMalloc (dst : member) (size : Z) (out : Z) (st : hipError_t)
  | call_hipFree (p : ptr) (st : hipError_t).

(** The status a MIOpen call returned; [None] for a call into HIP. *)
Definition miopen_status `{Platform} (e : event) : option miopenStatus_t :=
  match e with
  | call_CreateTensorDescriptor _ st
  | call_CreateLRNDescriptor _ st
  | call_SetLRNDescriptor _ _ _ _ _ _ st
  | call_Set4dTensorDescriptor _ _ _ _ _ _ st
  | call_DestroyTensorDescriptor _ st
  | call_DestroyLRNDescriptor _ st
  | call_LRNGetWorkSpaceSize _ _ st
  | call_LRNForward _ _ _ _ _ _ _ _ _ _ st
  | call_LRNBackward _ _ _ _ _ _ _ _ _ _ _ _ _ st => Some st
  | call_hipMalloc _ _ _ _ | call_hipFree _ _ => None
  end.

(** ** The world around an operator *)

Record HIPContext := { miopen_handle : miopenHandle_t }.

Record World `{Platform} := {
  Inputs : list Tensor;
  Outputs : list Tensor;
  mem : gmap ptr buffer;
  lib : lib_state;
  trace : list event;
  context_ : HIPContext;
}.

(** A method runs on the object ([this]) and the world. *)
Record state `{Platform} (Self : Type) := { this : Self; world : World }.
Arguments this {_ _} _.
Arguments world {_ _} _.
Arguments Build_state {_ _} _ _.

Section World.
Context `{Platform}.

Definition set_Outputs (o : list Tensor) (w : World) : World :=
  {| Inputs := Inputs w; Outputs := o; mem := mem w; lib := lib w;
     trace := trace w; context_ := context_ w |}.

Definition set_mem (m : gmap ptr buffer) (w : World) : World :=
  {| Inputs := Inputs w; Outputs := Outputs w; mem := m; lib := lib w;
     trace := trace w; context_ := context_ w |}.

(** A call returns: the library is in its new state and the call is
    logged. *)
Definition returned (l : lib_state) (e : event) (w : World) : World :=
  {| Inputs := Inputs w; Outputs := Outputs w; mem := mem w; lib := l;
     trace := trace w ++ [e]; context_ := context_ w |}.

Definition tensor_at (b : blob) (w : World) : option Tensor :=
  match b with
  | InputBlob i => Inputs w !! i
  | OutputBlob i => Outputs w !! i
  end.

(** What a call wrote through a [void*] argument; nothing is stored
    through [nullptr]. *)
Definition written (p : ptr) (b : option buffer) (m : gmap ptr buffer)
  : gmap ptr buffer :=
  match b with
  | Some c => if decide (p = nullptr) then m else <[p := c]> m
  | None => m
  end.
End World.

(** ** Exceptions and the monad of methods *)

Inductive exn :=
  | EnforceNotMet (msg : string)
  | OutOfRange (what : string)
  | MIOpenError (st : miopenStatus_t)
  | HIPError (st : hipError_t).

Inductive outcome (A : Type) := Ok (a : A) | Throw (e : exn).
Arguments Ok {A} a.
Arguments Throw {A} e.

(** A computation over a state [S]: its outcome and the state it leaves.  An
    exception leaves the state as it was at the throw; nothing is undone. *)
Definition M (S A : Type) : Type := S → outcome A * S.

#[global] Instance M_ret {S} : MRet (M S) := λ A a s, (Ok a, s).

#[global] Instance M_bind {S} : MBind (M S) := λ A B k c s,
  match c s with
  | (Ok a, s') => k a s'
  | (Throw e, s') => (Throw e, s')
  end.

#[global] Instance M_throw {S} : MThrow exn (M S) := λ A e s, (Throw e, s).

Definition gets {S A} (f : S → A) : M S A := λ s, (Ok (f s), s).

Definition modify {S} (f : S → S) : M S unit := λ s, (Ok tt, f s).

(** The states a framework or library operation can run on: anything that
    holds a world. *)
Class HasWorld `{Platform} (S : Type) := {
  the_world : S → World;
  with_world : World → S → S;
}.

#[global] Instance World_HasWorld `{Platform} : HasWorld World :=
  {| the_world := id; with_world := λ w _, w |}.

#[global] Instance state_HasWorld `{Platform} {Self} : HasWorld (state Self) :=
  {| the_world := world; with_world := λ w s, Build_state (this s) w |}.

(** Assignment to members of [this]. *)
Definition assign `{Platform} {Self} (f : Self → Self) : M (state Self) unit :=
  modify (λ s, Build_state (f (this s)) (world s)).

(** Reading a member of [this]. *)
Definition member_ `{Platform} {Self A} (f : Self → A) : M (state Self) A :=
  gets (λ s, f (this s)).

(** ** The framework *)

(** An argument of an operator definition: the field of the protobuf message
    that is set. *)
Inductive Argument `{Platform} :=
  | arg_i (i : Z) | arg_f (f : float) | arg_s (s : string).

Record OperatorDef `{Platform} := { arg : gmap string Argument }.

Section Framework.
Context `{Platform} {S : Type} `{!HasWorld S}.

(** Modelled from the spec: [CAFFE_THROW] ([caffe2/core/logging.h]) is not
    in the source tree; it raises the framework's fatal error with the
    given message. *)
Definition CAFFE_THROW {A} (msg : string) : M S A :=
  mthrow (EnforceNotMet msg).

(** Modelled from the spec: [MIOPEN_ENFORCE] ([miopen_wrapper.h]) is not in
    the source tree; a status other than success is propagated as a fatal
    failure that carries the code. *)
Definition MIOPEN_ENFORCE (st : miopenStatus_t) : M S unit :=
  if decide (st = miopenStatusSuccess) then mret tt
  else mthrow (MIOpenError st).

(** Modelled from the spec: [HIP_CHECK] ([common_hip.h]) is not in the
    source tree; the same for a HIP runtime status. *)
Definition HIP_CHECK (st : hipError_t) : M S unit :=
  if decide (st = hipSuccess) then mret tt else mthrow (HIPError st).

(** Modelled from the spec: [OperatorBase::GetSingleArgument<T>] is not in
    the source tree; it reads the named argument and yields the default
    when the definition has none.  An argument that holds a field of
    another type is a fatal error.  The integer field of an argument is 64
    bits wide and the result an [int]: a value that fits is returned as it
    is, one that does not is rejected or truncated, as the platform has
    it. *)
Definition GetSingleArgument_int (def : OperatorDef) (name : string)
    (default : Z) : M S Z :=
  match arg def !! name with
  | None => mret default
  | Some (arg_i v) =>
      if decide (fits_int v) then mret v
      else if rejects_lossy_arguments
           then CAFFE_THROW "Argument cannot be represented as an int"
           else mret (to_int v)
  | Some _ => CAFFE_THROW "Argument does not have the right field"
  end.

Definition GetSingleArgument_float (def : OperatorDef) (name : string)
    (default : float) : M S float :=
  match arg def !! name with
  | None => mret default
  | Some (arg_f v) => mret v
  | Some _ => CAFFE_THROW "Argument does not have the right field"
  end.

Definition GetSingleArgument_bool (def : OperatorDef) (name : string)
    (default : bool) : M S bool :=
  match arg def !! name with
  | None => mret default
  | Some (arg_i v) => mret (negb (Z.eqb v 0))
  | Some _ => CAFFE_THROW "Argument does not have the right field"
  end.

Definition on_world (f : World → World) : M S unit :=
  modify (λ s, with_world (f (the_world s)) s).

(** Modelled from the spec: [Input(i)] and [Output(i)] of
    [Operator<Context>] are not in the source tree; they give the i-th
    input tensor (by const reference) and the i-th output tensor (by
    pointer) of the operator, and fail when there is none. *)
Definition Input (i : nat) : M S blob :=
  w ← gets the_world;
  match Inputs w !! i with
  | Some _ => mret (InputBlob i)
  | None => mthrow (OutOfRange "Input")
  end.

Definition Output (i : nat) : M S blob :=
  w ← gets the_world;
  match Outputs w !! i with
  | Some _ => mret (OutputBlob i)
  | None => mthrow (OutOfRange "Output")
  end.

(** Reading a tensor through a reference obtained from [Input] or
    [Output]. *)
Definition deref (b : blob) : M S Tensor :=
  w ← gets the_world;
  match tensor_at b w with
  | Some t => mret t
  | None => mthrow (OutOfRange "Tensor")
  end.

(** The methods of [Tensor] ([caffe2/core/tensor.h]) are not in the source
    tree. *)

(** Modelled from the spec: [X.dims()], the shape. *)
Definition Tensor_dims (b : blob) : M S (list Z) :=
  t ← deref b; mret (dims t).

(** Modelled from the spec: [X.IsType<T>()], whether the elements are of
    type [T]. *)
Definition IsType (b : blob) (T : TypeMeta) : M S bool :=
  t ← deref b; mret (bool_decide (meta t = T)).

(** Modelled from the spec: [X.dim32(i)], the i-th dimension as an [int].
    The read is partial: a tensor without an i-th dimension, or with one
    that does not fit, has no [int] to give, and the method ends there, in
    a fatal error of the framework.  Which error that is, is of no
    concern below. *)
Definition dim32 (b : blob) (i : nat) : M S Z :=
  t ← deref b;
  match dims t !! i with
  | None => CAFFE_THROW "Exceeding ndim limit"
  | Some d =>
      if decide (d < INT_MAX) then mret d
      else CAFFE_THROW "dimension does not fit an int"
  end.

(** Modelled from the spec: [X.size()], the number of elements. *)
Definition Tensor_size (b : blob) : M S Z :=
  t ← deref b; mret (foldr Z.mul 1 (dims t)).

(** Modelled from the spec: [X.data<T>()], the storage, to be read. *)
Definition data (b : blob) : M S ptr := mret (data_of b).

(** A change to the host-side part of an output tensor. *)
Definition update_output (b : blob) (f : Tensor → Tensor) : M S unit :=
  match b with
  | OutputBlob i =>
      on_world (λ w, set_Outputs (alter f i (Outputs w)) w)
  | InputBlob _ => mret tt (* inputs are const *)
  end.

(** Modelled from the spec: [Y->mutable_data<T>()], the storage, to be
    written; the tensor now carries elements of type [T]. *)
Definition mutable_data (b : blob) (T : TypeMeta) : M S ptr :=
  update_output b (λ t, {| dims := dims t; meta := T |});;
  mret (data_of b).

(** Modelled from the spec: [Y->ResizeLike(X)], [Y] takes the shape of
    [X]. *)
Definition ResizeLike (y x : blob) : M S unit :=
  src ← deref x;
  update_output y (λ t, {| dims := dims src; meta := meta t |}).

(** Modelled from the spec: [miopen_wrapper_.inline_miopen_handle()]; the
    wrapper ([miopen_wrapper.h]) refers to the operator's context and hands
    out its MIOpen handle. *)
Definition inline_miopen_handle : M S miopenHandle_t :=
  gets (λ s, miopen_handle (context_ (the_world s))).

(** ** Calls into the library *)

(** A call that touches only the library's state. *)
Definition call {A} (f : lib_state → A * lib_state) (log : A → event)
  : M S A :=
  λ s, let w := the_world s in
       let '(r, l) := f (lib w) in
       (Ok r, with_world (returned l (log r) w) s).

Definition miopenCreateTensorDescriptor
  : M S (miopenStatus_t * miopenTensorDescriptor_t) :=
  call lib_miopenCreateTensorDescriptor
       (λ r, call_CreateTensorDescriptor r.2 r.1).

Definition miopenCreateLRNDescriptor
  : M S (miopenStatus_t * miopenLRNDescriptor_t) :=
  call lib_miopenCreateLRNDescriptor
       (λ r, call_CreateLRNDescriptor r.2 r.1).

(** Modelled from the spec: the prototype is in [miopen.h], not in the
    source tree.  The library takes the window size as
    [unsigned int lrnN] and the three scalars as [double]s: the [int] the
    caller passes is converted to [unsigned int], the [float]s are widened,
    which keeps their values. *)
Definition miopenSetLRNDescriptor (d : miopenLRNDescriptor_t)
    (mode : miopenLRNMode_t) (n : Z) (alpha beta k : float)
  : M S miopenStatus_t :=
  let lrnN := to_unsigned_int n in
  call (lib_miopenSetLRNDescriptor d mode lrnN alpha beta k)
       (call_SetLRNDescriptor d mode lrnN alpha beta k).

Definition miopenSet4dTensorDescriptor (d : miopenTensorDescriptor_t)
    (ty : miopenDataType_t) (n c h w : Z) : M S miopenStatus_t :=
  call (lib_miopenSet4dTensorDescriptor d ty n c h w)
       (call_Set4dTensorDescriptor d ty n c h w).

Definition miopenDestroyTensorDescriptor (d : miopenTensorDescriptor_t)
  : M S miopenStatus_t :=
  call (lib_miopenDestroyTensorDescriptor d)
       (call_DestroyTensorDescriptor d).

Definition miopenDestroyLRNDescriptor (d : miopenLRNDescriptor_t)
  : M S miopenStatus_t :=
  call (lib_miopenDestroyLRNDescriptor d) (call_DestroyLRNDescriptor d).

Definition miopenLRNGetWorkSpaceSize (d : miopenTensorDescriptor_t)
  : M S (miopenStatus_t * Z) :=
  call (lib_miopenLRNGetWorkSpaceSize d)
       (λ r, call_LRNGetWorkSpaceSize d r.2 r.1).

Definition hipMalloc (dst : member) (size : Z) : M S (hipError_t * Z) :=
  call (lib_hipMalloc size) (λ r, call_hipMalloc dst size r.2 r.1).

Definition hipFree (p : ptr) : M S hipError_t :=
  call (lib_hipFree p) (call_hipFree p).

(** The two compute entry points also write device memory. *)
Definition miopenLRNForward (h : miopenHandle_t)
    (norm : miopenLRNDescriptor_t) (alpha : float)
    (xDesc : miopenTensorDescriptor_t) (x : ptr) (beta : float)
    (yDesc : miopenTensorDescriptor_t) (y : ptr) (do_backward : bool)
    (workSpace : ptr) : M S miopenStatus_t :=
  λ s, let w := the_world s in
       let '(st, wy, wws, l) :=
         lib_miopenLRNForward h norm alpha xDesc x beta yDesc y do_backward
                              workSpace (mem w) (lib w) in
       let m := written y wy (written workSpace wws (mem w)) in
       (Ok st,
        with_world
          (returned l (call_LRNForward h norm alpha xDesc x beta yDesc y
                                       do_backward workSpace st)
                    (set_mem m w)) s).

Definition miopenLRNBackward (h : miopenHandle_t)
    (norm : miopenLRNDescriptor_t) (alpha : float)
    (yDesc : miopenTensorDescriptor_t) (y : ptr)
    (dyDesc : miopenTensorDescriptor_t) (dy : ptr)
    (xDesc : miopenTensorDescriptor_t) (x : ptr) (beta : float)
    (dxDesc : miopenTensorDescriptor_t) (dx : ptr) (workSpace : ptr)
  : M S miopenStatus_t :=
  λ s, let w := the_world s in
       let '(st, wdx, l) :=
         lib_miopenLRNBackward h norm alpha yDesc y dyDesc dy xDesc x beta
                               dxDesc dx workSpace (mem w) (lib w) in
       (Ok st,
        with_world
          (returned l (call_LRNBackward h norm alpha yDesc y dyDesc dy
                                        xDesc x beta dxDesc dx workSpace st)
                    (set_mem (written dx wdx (mem w)) w)) s).
End Framework.

(** [x * sizeof(float)] in [size_t]: 64 bits, wrapping. *)
Definition times_sizeof_float (x : Z) : Z := (x * 4) mod 2 ^ 64.

(** * The forward operator *)

Module MIOPEN_LRNOP.
Section Class.
Context `{Platform}.

(** The members.  [miopen_wrapper_] holds nothing but the reference to the
    context, see [inline_miopen_handle]. *)
Record t := {
  data_desc_ : miopenTensorDescriptor_t;
  norm_desc_ : miopenLRNDescriptor_t;
  miopen_input_dims_ : list Z;
  mode_ : miopenLRNMode_t;
  size_ : Z; (* const int: what [GetSingleArgument_int] returned *)
  alpha_ : float;
  beta_ : float;
  bias_ : float;
}.

Definition set_miopen_input_dims_ (v : list Z) (o : t) : t :=
  {| data_desc_ := data_desc_ o; norm_desc_ := norm_desc_ o;
     miopen_input_dims_ := v; mode_ := mode_ o; size_ := size_ o;
     alpha_ := alpha_ o; beta_ := beta_ o; bias_ := bias_ o |}.

(** The constructor [MIOPEN_LRNOP(operator_def, ws)]: the member
    initialisers, then the body.  The input dims start as the empty
    vector. *)
Definition new (operator_def : OperatorDef) : M World t :=
  let mode := miopenLRNCrossChannel in
  size ← GetSingleArgument_int operator_def "size" 0;
  alpha ← GetSingleArgument_float operator_def "alpha" (float_of_int 0);
  beta ← GetSingleArgument_float operator_def "beta" (float_of_int 0);
  bias ← GetSingleArgument_float operator_def "bias" (float_of_int 1);
  '(st, data_desc) ← miopenCreateTensorDescriptor;
  MIOPEN_ENFORCE st;;
  '(st, norm_desc) ← miopenCreateLRNDescriptor;
  MIOPEN_ENFORCE st;;
  st ← miopenSetLRNDescriptor norm_desc mode size alpha beta bias;
  MIOPEN_ENFORCE st;;
  mret {| data_desc_ := data_desc; norm_desc_ := norm_desc;
          miopen_input_dims_ := []; mode_ := mode; size_ := size;
          alpha_ := alpha; beta_ := beta; bias_ := bias |}.

(** The destructor [~MIOPEN_LRNOP()]. *)
Definition delete : M (state t) unit :=
  data_desc ← member_ data_desc_;
  st ← miopenDestroyTensorDescriptor data_desc;
  MIOPEN_ENFORCE st;;
  norm_desc ← member_ norm_desc_;
  st ← miopenDestroyLRNDescriptor norm_desc;
  MIOPEN_ENFORCE st.

(** [DoRunWithType<float, float>], the one instantiation in the file;
    [miopenTypeWrapper<float>::type] is [miopenFloat]. *)
Definition DoRunWithType : M (state t) bool :=
  X ← Input 0;
  Y ← Output 0;
  (* Reshape tensor descriptors if necessary *)
  X_dims ← Tensor_dims X;
  cached ← member_ miopen_input_dims_;
  (if decide (X_dims ≠ cached) then
     assign (set_miopen_input_dims_ X_dims);;
     C ← dim32 X 1;
     H ← dim32 X 2;
     W ← dim32 X 3;
     data_desc ← member_ data_desc_;
     N ← dim32 X 0;
     st ← miopenSet4dTensorDescriptor data_desc miopenFloat N C H W;
     MIOPEN_ENFORCE st
   else mret tt);;
  (* now actually run the computation *)
  handle ← inline_miopen_handle;
  norm_desc ← member_ norm_desc_;
  alpha ← member_ alpha_;
  data_desc ← member_ data_desc_;
  x ← data X;
  beta ← member_ beta_;
  y ← mutable_data Y meta_float;
  st ← miopenLRNForward handle norm_desc alpha data_desc x beta data_desc y
                        false nullptr;
  MIOPEN_ENFORCE st;;
  mret true.

Definition RunOnDevice : M (state t) bool :=
  (* dispatch based on contents of tensor(s) *)
  X ← Input 0;
  Y ← Output 0;
  ResizeLike Y X;;
  is_float ← IsType X meta_float;
  if (is_float : bool) then DoRunWithType
  else CAFFE_THROW "Unsupported input type".
End Class.
End MIOPEN_LRNOP.

(** * The gradient operator *)

Module MIOPENLRNGradientOp.
Section Class.
Context `{Platform}.

Record t := {
  data_desc_ : miopenTensorDescriptor_t;
  norm_desc_ : miopenLRNDescriptor_t;
  miopen_input_dims_ : list Z;
  mode_ : miopenLRNMode_t;
  size_ : Z; (* const int: what [GetSingleArgument_int] returned *)
  alpha_ : float;
  beta_ : float;
  bias_ : float;
  do_backward_ : bool;
  bwdLRNWs_ : Z;      (* float*: a raw device address, 0 is nullptr *)
  bwdLRNScratch_ : Z; (* float* *)
}.

Definition set_miopen_input_dims_ (v : list Z) (o : t) : t :=
  {| data_desc_ := data_desc_ o; norm_desc_ := norm_desc_ o;
     miopen_input_dims_ := v; mode_ := mode_ o; size_ := size_ o;
     alpha_ := alpha_ o; beta_ := beta_ o; bias_ := bias_ o;
     do_backward_ := do_backward_ o; bwdLRNWs_ := bwdLRNWs_ o;
     bwdLRNScratch_ := bwdLRNScratch_ o |}.

Definition set_bwdLRNWs_ (v : Z) (o : t) : t :=
  {| data_desc_ := data_desc_ o; norm_desc_ := norm_desc_ o;
     miopen_input_dims_ := miopen_input_dims_ o; mode_ := mode_ o;
     size_ := size_ o; alpha_ := alpha_ o; beta_ := beta_ o;
     bias_ := bias_ o; do_backward_ := do_backward_ o; bwdLRNWs_ := v;
     bwdLRNScratch_ := bwdLRNScratch_ o |}.

Definition set_bwdLRNScratch_ (v : Z) (o : t) : t :=
  {| data_desc_ := data_desc_ o; norm_desc_ := norm_desc_ o;
     miopen_input_dims_ := miopen_input_dims_ o; mode_ := mode_ o;
     size_ := size_ o; alpha_ := alpha_ o; beta_ := beta_ o;
     bias_ := bias_ o; do_backward_ := do_backward_ o;
     bwdLRNWs_ := bwdLRNWs_ o; bwdLRNScratch_ := v |}.

(** The constructor [MIOPENLRNGradientOp(operator_def, ws)]; the two
    buffers start as [nullptr]. *)
Definition new (operator_def : OperatorDef) : M World t :=
  let mode := miopenLRNCrossChannel in
  size ← GetSingleArgument_int operator_def "size" 0;
  alpha ← GetSingleArgument_float operator_def "alpha" (float_of_int 0);
  beta ← GetSingleArgument_float operator_def "beta" (float_of_int 0);
  bias ← GetSingleArgument_float operator_def "bias" (float_of_int 1);
  do_backward ← GetSingleArgument_bool operator_def "do_backward" false;
  '(st, data_desc) ← miopenCreateTensorDescriptor;
  MIOPEN_ENFORCE st;;
  '(st, norm_desc) ← miopenCreateLRNDescriptor;
  MIOPEN_ENFORCE st;;
  st ← miopenSetLRNDescriptor norm_desc mode size alpha beta bias;
  MIOPEN_ENFORCE st;;
  mret {| data_desc_ := data_desc; norm_desc_ := norm_desc;
          miopen_input_dims_ := []; mode_ := mode; size_ := size;
          alpha_ := alpha; beta_ := beta; bias_ := bias;
          do_backward_ := do_backward; bwdLRNWs_ := 0;
          bwdLRNScratch_ := 0 |}.

(** The destructor [~MIOPENLRNGradientOp()]; the status of [hipFree] is
    dropped. *)
Definition delete : M (state t) unit :=
  data_desc ← member_ data_desc_;
  st ← miopenDestroyTensorDescriptor data_desc;
  MIOPEN_ENFORCE st;;
  norm_desc ← member_ norm_desc_;
  st ← miopenDestroyLRNDescriptor norm_desc;
  MIOPEN_ENFORCE st;;
  ws ← member_ bwdLRNWs_;
  (if decide (device ws ≠ nullptr) then
     hipFree (device ws);;
     assign (set_bwdLRNWs_ 0)
   else mret tt : M (state t) unit);;
  scratch ← member_ bwdLRNScratch_;
  (if decide (device scratch ≠ nullptr) then
     hipFree (device scratch);;
     assign (set_bwdLRNScratch_ 0)
   else mret tt : M (state t) unit).

(** [DoRunWithType<float, float>]. *)
Definition DoRunWithType : M (state t) bool :=
  X ← Input 0;
  Y ← Input 1;
  dY ← Input 2;
  dX ← Output 0;
  dY_dims ← Tensor_dims dY;
  cached ← member_ miopen_input_dims_;
  (if decide (dY_dims ≠ cached) then
     assign (set_miopen_input_dims_ dY_dims);;
     C ← dim32 dY 1;
     H ← dim32 dY 2;
     W ← dim32 dY 3;
     data_desc ← member_ data_desc_;
     N ← dim32 dY 0;
     st ← miopenSet4dTensorDescriptor data_desc miopenFloat N C H W;
     MIOPEN_ENFORCE st
   else mret tt);;
  data_desc ← member_ data_desc_;
  '(st, ws_size) ← miopenLRNGetWorkSpaceSize data_desc;
  MIOPEN_ENFORCE st;;
  ws ← member_ bwdLRNWs_;
  (if decide (device ws = nullptr) then
     '(st, a) ← hipMalloc addr_bwdLRNWs ws_size;
     assign (set_bwdLRNWs_ a);;
     HIP_CHECK st
   else mret tt : M (state t) unit);;
  (* Run fwd pass to populate workspace *)
  scratch ← member_ bwdLRNScratch_;
  (if decide (device scratch = nullptr) then
     X_size ← Tensor_size X;
     '(st, a) ← hipMalloc addr_bwdLRNScratch (times_sizeof_float X_size);
     assign (set_bwdLRNScratch_ a);;
     HIP_CHECK st
   else mret tt : M (state t) unit);;
  handle ← inline_miopen_handle;
  norm_desc ← member_ norm_desc_;
  alpha ← member_ alpha_;
  x ← data X;
  beta ← member_ beta_;
  scratch ← member_ bwdLRNScratch_;
  ws ← member_ bwdLRNWs_;
  st ← miopenLRNForward handle norm_desc alpha data_desc x beta data_desc
                        (device scratch) true (device ws);
  MIOPEN_ENFORCE st;;
  (* Run the bwd computation *)
  y ← data Y;
  dy ← data dY;
  dx ← mutable_data dX meta_float;
  st ← miopenLRNBackward handle norm_desc alpha data_desc y data_desc dy
                         data_desc x beta data_desc dx (device ws);
  MIOPEN_ENFORCE st;;
  mret true.

Definition RunOnDevice : M (state t) bool :=
  (* dispatch based on contents of tensor(s) *)
  X ← Input 0;
  Y ← Input 1;
  dY ← Input 2;
  dX ← Output 0;
  ResizeLike dX dY;;
  is_float ← IsType dY meta_float;
  if (is_float : bool) then DoRunWithType
  else CAFFE_THROW "Unsupported input type".
End Class.
End MIOPENLRNGradientOp.

(** * Registration *)

Inductive operator_class := class_MIOPEN_LRNOP | class_MIOPENLRNGradientOp.

#[global] Instance operator_class_eq_dec : EqDecision operator_class.
Proof. solve_decision. Defined.

(** Modelled from the spec: [REGISTER_MIOPEN_OPERATOR] is not in the source
    tree; it binds the name to the class in the registry of MIOpen
    operators. *)
Definition REGISTER_MIOPEN_OPERATOR (name : string) (c : operator_class)
    (r : gmap string operator_class) : gmap string operator_class :=
  <[name := c]> r.

Definition registry : gmap string operator_class :=
  REGISTER_MIOPEN_OPERATOR "LRNGradient" class_MIOPENLRNGradientOp
    (REGISTER_MIOPEN_OPERATOR "LRN" class_MIOPEN_LRNOP ∅).

(** An instance of a registered class. *)
Inductive operator `{Platform} :=
  | op_LRN (o : MIOPEN_LRNOP.t)
  | op_LRNGradient (o : MIOPENLRNGradientOp.t).

(** What the registry's creator does for a class. *)
Definition create `{Platform} (c : operator_class) (def : OperatorDef)
  : M World operator :=
  match c with
  | class_MIOPEN_LRNOP => o ← MIOPEN_LRNOP.new def; mret (op_LRN o)
  | class_MIOPENLRNGradientOp =>
      o ← MIOPENLRNGradientOp.new def; mret (op_LRNGradient o)
  end.

(** Running a method of one class on an instance. *)
Definition on_instance `{Platform} {Self A} (wrap : Self → operator)
    (m : M (state Self) A) (o : Self) (w : World)
  : outcome A * (operator * World) :=
  let '(r, s) := m (Build_state o w) in (r, (wrap (this s), world s)).

(** The virtual [RunOnDevice]. *)
Definition run `{Platform} (o : operator) (w : World)
  : outcome bool * (operator * World) :=
  match o with
  | op_LRN o => on_instance op_LRN MIOPEN_LRNOP.RunOnDevice o w
  | op_LRNGradient o =>
      on_instance op_LRNGradient MIOPENLRNGradientOp.RunOnDevice o w
  end.

(** * A scripted platform

    An instance of [Platform] to run the operators on: scalars are integers,
    a buffer is a list of integers, and the library answers each call with
    the next status of a script (success once the script is used up).
    [hipMalloc] hands out increasing addresses, and [nullptr] for a request
    of zero bytes. *)
Module Scripted.
Record oracle := { script : list Z; brk : Z }.

Definition answer (s : oracle) : Z * oracle :=
  match script s with
  | [] => (0, s)
  | st :: rest => (st, {| script := rest; brk := brk s |})
  end.

Definition malloc (size : Z) (s : oracle) : Z * Z * oracle :=
  let '(st, s') := answer s in
  if decide (st = 0 ∧ size ≠ 0)
  then (st, brk s', {| script := script s'; brk := brk s' + size |})
  else (st, 0, s').

#[global] Instance platform : Platform := {|
  float := Z;
  float_of_int := id;
  buffer := list Z;
  lib_state := oracle;
  lib_miopenCreateTensorDescriptor s := let '(st, s') := answer s in (st, 16, s');
  lib_miopenCreateLRNDescriptor s := let '(st, s') := answer s in (st, 32, s');
  lib_miopenSetLRNDescriptor _ _ _ _ _ _ := answer;
  lib_miopenSet4dTensorDescriptor _ _ _ _ _ _ := answer;
  lib_miopenDestroyTensorDescriptor _ := answer;
  lib_miopenDestroyLRNDescriptor _ := answer;
  lib_miopenLRNGetWorkSpaceSize _ s := let '(st, s') := answer s in (st, 256, s');
  lib_miopenLRNForward _ _ _ _ x _ _ _ _ _ m s :=
    let '(st, s') := answer s in
    (st, (λ c, 1 :: c) <$> m !! x, Some [2], s');
  lib_miopenLRNBackward _ _ _ _ _ _ dy _ _ _ _ _ _ m s :=
    let '(st, s') := answer s in
    (st, (λ c, 3 :: c) <$> m !! dy, s');
  lib_hipMalloc := malloc;
  lib_hipFree _ := answer;
  rejects_lossy_arguments := true;
|}.

Definition fresh (statuses : list Z) : oracle :=
  {| script := statuses; brk := 4096 |}.

Definition a_world (ins outs : list Tensor) (statuses : list Z) : World :=
  {| Inputs := ins; Outputs := outs;
     mem := {[ data_of (InputBlob 0) := [10]; data_of (InputBlob 1) := [11];
               data_of (InputBlob 2) := [12] ]};
     lib := fresh statuses; trace := [];
     context_ := {| miopen_handle := 7 |} |}.

Definition image : Tensor := {| dims := [2; 3; 4; 4]; meta := meta_float |}.
Definition empty_out : Tensor := {| dims := []; meta := meta_uninitialized |}.
Definition no_args : OperatorDef := {| arg := ∅ |}.

(** A definition with every hyperparameter, and the forward operator the
    constructor builds from it. *)
Definition some_args : OperatorDef :=
  {| arg := {[ "size" := arg_i 5; "alpha" := arg_f 2; "beta" := arg_f 3;
               "bias" := arg_f 4 ]} |}.

(** A definition with a negative size, and one with a size that does not
    fit an [int]. *)
Definition negative_size : OperatorDef :=
  {| arg := {[ "size" := arg_i (-1) ]} |}.

Definition wide_size : OperatorDef :=
  {| arg := {[ "size" := arg_i 4294967296 ]} |}.

(** The operators the constructors build from [no_args]. *)
Definition LRN_op : MIOPEN_LRNOP.t :=
  {| MIOPEN_LRNOP.data_desc_ := 16; MIOPEN_LRNOP.norm_desc_ := 32;
     MIOPEN_LRNOP.miopen_input_dims_ := [];
     MIOPEN_LRNOP.mode_ := miopenLRNCrossChannel;
     MIOPEN_LRNOP.size_ := 0; MIOPEN_LRNOP.alpha_ := 0;
     MIOPEN_LRNOP.beta_ := 0; MIOPEN_LRNOP.bias_ := 1 |}.

Definition gradient_op : MIOPENLRNGradientOp.t :=
  {| MIOPENLRNGradientOp.data_desc_ := 16;
     MIOPENLRNGradientOp.norm_desc_ := 32;
     MIOPENLRNGradientOp.miopen_input_dims_ := [];
     MIOPENLRNGradientOp.mode_ := miopenLRNCrossChannel;
     MIOPENLRNGradientOp.size_ := 0; MIOPENLRNGradientOp.alpha_ := 0;
     MIOPENLRNGradientOp.beta_ := 0; MIOPENLRNGradientOp.bias_ := 1;
     MIOPENLRNGradientOp.do_backward_ := false;
     MIOPENLRNGradientOp.bwdLRNWs_ := 0;
     MIOPENLRNGradientOp.bwdLRNScratch_ := 0 |}.

Definition LRN_op_5 : MIOPEN_LRNOP.t :=
  {| MIOPEN_LRNOP.data_desc_ := 16; MIOPEN_LRNOP.norm_desc_ := 32;
     MIOPEN_LRNOP.miopen_input_dims_ := [];
     MIOPEN_LRNOP.mode_ := miopenLRNCrossChannel;
     MIOPEN_LRNOP.size_ := 5; MIOPEN_LRNOP.alpha_ := 2;
     MIOPEN_LRNOP.beta_ := 3; MIOPEN_LRNOP.bias_ := 4 |}.

(** A first run of each operator on float images; every call succeeds. *)
Definition LRN_start : state MIOPEN_LRNOP.t :=
  Build_state LRN_op (a_world [image] [empty_out] []).

Definition gradient_world (statuses : list Z) : World :=
  a_world [image; image; image] [empty_out] statuses.

Definition gradient_start : state MIOPENLRNGradientOp.t :=
  Build_state gradient_op (gradient_world []).

(** The same run of the gradient, but the library sets the descriptor and
    then answers the workspace-size query with status 5. *)
Definition gradient_start_failing_query : state MIOPENLRNGradientOp.t :=
  Build_state gradient_op (gradient_world [0; 5]).

(** A smaller float image. *)
Definition small_image : Tensor :=
  {| dims := [1; 1; 2; 2]; meta := meta_float |}.

Definition small_gradient_world : World :=
  a_world [small_image; small_image; small_image] [empty_out] [].
End Scripted.


(** * The vocabulary of the properties *)

Section Vocabulary.
Context `{Platform}.

(** The calls a computation made: what it appended to the log. *)
Definition calls {S} `{!HasWorld S} (before after : S) (evs : list event)
  : Prop :=
  trace (the_world after) = trace (the_world before) ++ evs.

(** The same as a function of the two logs. *)
Definition new_calls {S} `{!HasWorld S} (before after : S) : list event :=
  drop (length (trace (the_world before))) (trace (the_world after)).

(** A method propagates the library's codes: whenever one of the MIOpen
    calls it made returned a status other than success, that call is the
    last one it made and the method ends in the fatal failure that carries
    the status. *)
Definition propagates_codes {S A} `{!HasWorld S} (m : M S A) : Prop :=
  ∀ s, ∃ evs, calls s (m s).2 evs ∧
    ∀ e st, e ∈ evs → miopen_status e = Some st →
      st ≠ miopenStatusSuccess →
      (m s).1 = Throw (MIOpenError st) ∧ last evs = Some e.

(** The three entry points of the gradient computation. *)
Definition is_entry_point (e : event) : bool :=
  match e with
  | call_LRNGetWorkSpaceSize _ _ _
  | call_LRNForward _ _ _ _ _ _ _ _ _ _ _
  | call_LRNBackward _ _ _ _ _ _ _ _ _ _ _ _ _ _ => true
  | _ => false
  end.

Definition entry_points (evs : list event) : list event :=
  List.filter is_entry_point evs.

(** The calls of a gradient run to the entry points, for an operator [o]
    with handle [h]: the size query, the forward pass from [X] into the
    scratch buffer with the workspace, the backward pass from [Y], [dY]
    and [X] into [dX]. *)
Definition gradient_sequence (o : MIOPENLRNGradientOp.t)
    (h : miopenHandle_t) (ws_size : Z) (st1 st2 st3 : miopenStatus_t)
  : list event :=
  let d := MIOPENLRNGradientOp.data_desc_ o in
  let norm := MIOPENLRNGradientOp.norm_desc_ o in
  let alpha := MIOPENLRNGradientOp.alpha_ o in
  let beta := MIOPENLRNGradientOp.beta_ o in
  let scratch := device (MIOPENLRNGradientOp.bwdLRNScratch_ o) in
  let ws := device (MIOPENLRNGradientOp.bwdLRNWs_ o) in
  [ call_LRNGetWorkSpaceSize d ws_size st1;
    call_LRNForward h norm alpha d (data_of (InputBlob 0)) beta d scratch
                    true ws st2;
    call_LRNBackward h norm alpha d (data_of (InputBlob 1))
                     d (data_of (InputBlob 2)) d (data_of (InputBlob 0))
                     beta d (data_of (OutputBlob 0)) ws st3 ].

(** A run invokes both compute entry points after the size query. *)
Definition invokes_both (s s' : state MIOPENLRNGradientOp.t) : Prop :=
  ∃ ws_size st1 st2 st3,
    entry_points (new_calls s s') =
    gradient_sequence (this s') (miopen_handle (context_ (world s)))
                      ws_size st1 st2 st3.

(** The tensor descriptors a compute call was given. *)
Definition descriptors_of (e : event) : list miopenTensorDescriptor_t :=
  match e with
  | call_LRNForward _ _ _ xDesc _ _ yDesc _ _ _ _ => [xDesc; yDesc]
  | call_LRNBackward _ _ _ yDesc _ dyDesc _ xDesc _ _ dxDesc _ _ _ =>
      [yDesc; dyDesc; xDesc; dxDesc]
  | _ => []
  end.

Definition is_SetLRNDescriptor (e : event) : bool :=
  match e with call_SetLRNDescriptor _ _ _ _ _ _ _ => true | _ => false end.

Definition is_Set4dTensorDescriptor (e : event) : bool :=
  match e with
  | call_Set4dTensorDescriptor _ _ _ _ _ _ _ => true
  | _ => false
  end.

Definition same_member (a b : member) : bool :=
  match a, b with
  | addr_bwdLRNWs, addr_bwdLRNWs
  | addr_bwdLRNScratch, addr_bwdLRNScratch => true
  | _, _ => false
  end.

Definition is_hipMalloc (dst : member) (e : event) : bool :=
  match e with
  | call_hipMalloc dst' _ _ _ => same_member dst' dst
  | _ => false
  end.

Definition is_hipFree (e : event) : bool :=
  match e with call_hipFree _ _ => true | _ => false end.

(** The input an operator dispatches on: X for the forward operator, dY
    for the gradient operator. *)
Definition dispatch_tensor (o : operator) : nat :=
  match o with op_LRN _ => 0%nat | op_LRNGradient _ => 2%nat end.

Definition data_desc (o : operator) : miopenTensorDescriptor_t :=
  match o with
  | op_LRN o => MIOPEN_LRNOP.data_desc_ o
  | op_LRNGradient o => MIOPENLRNGradientOp.data_desc_ o
  end.

Definition cached_dims (o : operator) : list Z :=
  match o with
  | op_LRN o => MIOPEN_LRNOP.miopen_input_dims_ o
  | op_LRNGradient o => MIOPENLRNGradientOp.miopen_input_dims_ o
  end.

(** The calls of [evs] that set a 4-d tensor descriptor. *)
Definition set_calls (evs : list event) : list event :=
  List.filter is_Set4dTensorDescriptor evs.

(** In the calls [hist] made so far, the last one to set a tensor
    descriptor has handed the shape [(n, c, h, w)], with the element type
    float, to the descriptor [d]. *)
Definition last_set_to (d : miopenTensorDescriptor_t) (n c h w : Z)
    (hist : list event) : Prop :=
  ∃ st, last (set_calls hist)
        = Some (call_Set4dTensorDescriptor d miopenFloat n c h w st).

(** The calls [evs] of a run with outcome [r], made after the calls [hist]
    of the operator's construction and earlier runs, marshal the shape
    [(n, c, h, w)] into the descriptor [d]:
    - the run calls the library, and every tensor descriptor it hands to a
      compute call is [d];
    - when the shape is not the cached one, the first call of the run sets
      [d] to that shape, as floats; no other call of the run sets a
      descriptor, and when this one fails it is the last call and its
      status the failure of the run, so that the compute calls of the run
      come after it has returned success;
    - when the shape is the cached one the run sets no descriptor;
    - either way, the last call to set a descriptor, of this run or of an
      earlier one, has handed that shape to [d]. *)
Definition marshals_shape (d : miopenTensorDescriptor_t)
    (cached : list Z) (n c h w : Z) (r : outcome bool)
    (hist evs : list event) : Prop :=
  evs ≠ []
  ∧ (∀ e d', e ∈ evs → d' ∈ descriptors_of e → d' = d)
  ∧ ([n; c; h; w] ≠ cached →
     ∃ st rest,
       evs = call_Set4dTensorDescriptor d miopenFloat n c h w st :: rest
       ∧ set_calls rest = []
       ∧ (st ≠ miopenStatusSuccess →
          rest = [] ∧ r = Throw (MIOpenError st)))
  ∧ ([n; c; h; w] = cached → set_calls evs = [])
  ∧ last_set_to d n c h w (hist ++ evs).

(** The cached dims of an operator are in step with the calls [hist] made
    so far: when they are a shape that can be marshaled, the last call to
    set a descriptor has handed that shape to the operator's descriptor. *)
Definition in_step (o : operator) (hist : list event) : Prop :=
  ∀ n c h w, cached_dims o = [n; c; h; w] →
    n < INT_MAX → c < INT_MAX → h < INT_MAX → w < INT_MAX →
    last_set_to (data_desc o) n c h w hist.

(** The descriptor [d] has been set for the shape: the last call to set a
    descriptor has handed the shape to [d] and has returned success. *)
Definition descriptor_is_set (d : miopenTensorDescriptor_t) (n c h w : Z)
    (hist : list event) : Prop :=
  last (set_calls hist)
  = Some (call_Set4dTensorDescriptor d miopenFloat n c h w
                                     miopenStatusSuccess).

(** The [int] read from an argument: the default when there is none, the
    stored integer when it fits an [int], its low 32 bits when it does not
    and the platform truncates. *)
Definition int_argument (def : OperatorDef) (name : string) (default : Z)
    (v : Z) : Prop :=
  match arg def !! name with
  | None => v = default
  | Some a =>
      ∃ i, a = arg_i i
           ∧ ((fits_int i ∧ v = i)
              ∨ (¬ fits_int i ∧ rejects_lossy_arguments = false
                 ∧ v = to_int i))
  end.

(** The value of an argument of type [float], or the default. *)
Definition float_argument (def : OperatorDef) (name : string)
    (default : float) (v : float) : Prop :=
  match arg def !! name with
  | None => v = default
  | Some a => a = arg_f v
  end.
End Vocabulary.

(** ** Delegation, as the specification words it

    "Marshal tensor shapes and scalars into the vendor library's descriptor
    objects, invoke its forward/backward entry points, propagate its error
    codes as fatal failures."  The definitions of this section are written
    from that sentence and not from the methods: [marshal] turns an
    operator and its blobs into the requests to put to the library,
    [serve] lets the library answer them one after the other, up to the
    first error code, and [by_delegation] is the two composed.  What the
    methods of the source do is compared with it below. *)
Section Delegation.
Context `{Platform}.

(** Marshaling a shape: the four leading dimensions. *)
Definition marshal_shape (shape : list Z) : option (Z * Z * Z * Z) :=
  match shape with
  | n :: c :: h :: w :: _ => Some (n, c, h, w)
  | _ => None
  end.

(** The device: its memory and the state of the library. *)
Definition device_state : Type := gmap ptr buffer * lib_state.

(** How a delegation ends: every request answered with success, an error
    code of MIOpen, an error code of the HIP runtime, or the blobs refused
    before anything was asked of the library. *)
Inductive verdict :=
  | completed
  | vendor_failure (st : miopenStatus_t)
  | runtime_failure (st : hipError_t)
  | rejected.

(** An operand of a compute request: the storage of a blob, one of the two
    buffers the gradient operator keeps, or none. *)
Inductive operand :=
  | of_blob (b : blob)
  | of_buffer (dst : member)
  | no_operand.

(** A request to the library.  [reserve dst bytes] asks for the buffer of
    [dst], of the given size or ([None]) of the size last measured. *)
Inductive request :=
  | describe (d : miopenTensorDescriptor_t) (n c h w : Z)
  | measure (d : miopenTensorDescriptor_t)
  | reserve (dst : member) (bytes : option Z)
  | normalize (h : miopenHandle_t) (norm : miopenLRNDescriptor_t)
      (alpha beta : float) (d : miopenTensorDescriptor_t) (x y : operand)
      (do_backward : bool) (workspace : operand)
  | differentiate (h : miopenHandle_t) (norm : miopenLRNDescriptor_t)
      (alpha beta : float) (d : miopenTensorDescriptor_t)
      (y dy x dx workspace : operand).

(** What the requests refer to: the size measured and the two buffers. *)
Record registers := { measured : Z; workspace_at : Z; scratch_at : Z }.

Definition address (regs : registers) (a : operand) : ptr :=
  match a with
  | of_blob b => data_of b
  | of_buffer addr_bwdLRNWs => device (workspace_at regs)
  | of_buffer addr_bwdLRNScratch => device (scratch_at regs)
  | no_operand => nullptr
  end.

Definition reserved (dst : member) (a : Z) (regs : registers) : registers :=
  match dst with
  | addr_bwdLRNWs =>
      {| measured := measured regs; workspace_at := a;
         scratch_at := scratch_at regs |}
  | addr_bwdLRNScratch =>
      {| measured := measured regs; workspace_at := workspace_at regs;
         scratch_at := a |}
  end.

(** One request put to the library: the error code, if any, and the
    registers and the device afterwards.  [written] is the library's own
    effect on the device memory: what an entry point stored through a
    pointer it was handed. *)
Definition ask (r : request) (regs : registers) (dv : device_state)
  : option verdict * registers * device_state :=
  let '(m, l) := dv in
  match r with
  | describe d n c h w =>
      let '(st, l') :=
        lib_miopenSet4dTensorDescriptor d miopenFloat n c h w l in
      (if decide (st = miopenStatusSuccess) then None
       else Some (vendor_failure st), regs, (m, l'))
  | measure d =>
      let '(st, size, l') := lib_miopenLRNGetWorkSpaceSize d l in
      (if decide (st = miopenStatusSuccess) then None
       else Some (vendor_failure st),
       {| measured := size; workspace_at := workspace_at regs;
          scratch_at := scratch_at regs |}, (m, l'))
  | reserve dst bytes =>
      let '(st, a, l') := lib_hipMalloc (default (measured regs) bytes) l in
      (if decide (st = hipSuccess) then None else Some (runtime_failure st),
       reserved dst a regs, (m, l'))
  | normalize h norm alpha beta d x y do_backward workspace =>
      let py := address regs y in
      let pw := address regs workspace in
      let '(st, wy, ww, l') :=
        lib_miopenLRNForward h norm alpha d (address regs x) beta d py
                             do_backward pw m l in
      (if decide (st = miopenStatusSuccess) then None
       else Some (vendor_failure st), regs,
       (written py wy (written pw ww m), l'))
  | differentiate h norm alpha beta d y dy x dx workspace =>
      let pdx := address regs dx in
      let '(st, wdx, l') :=
        lib_miopenLRNBackward h norm alpha d (address regs y)
          d (address regs dy) d (address regs x) beta d pdx
          (address regs workspace) m l in
      (if decide (st = miopenStatusSuccess) then None
       else Some (vendor_failure st), regs, (written pdx wdx m, l'))
  end.

(** The library call: the requests are answered in order, and the first
    error code ends the delegation. *)
Fixpoint serve (rs : list request) (regs : registers) (dv : device_state)
  : verdict * device_state :=
  match rs with
  | [] => (completed, dv)
  | r :: rest =>
      let '(failure, regs', dv') := ask r regs dv in
      match failure with
      | Some v => (v, dv')
      | None => serve rest regs' dv'
      end
  end.

(** A dimension as the [int] the library takes. *)
Definition as_int (d : Z) : option Z :=
  if decide (d < INT_MAX) then Some d else None.

(** Marshaling the shape of [T] into the descriptor [d]: nothing to ask
    when it is the cached shape, else the request to describe the dims 0
    to 3, as [int]s. *)
Definition marshal_dims (d : miopenTensorDescriptor_t) (cached : list Z)
    (T : Tensor) : option (list request) :=
  if decide (dims T = cached) then Some []
  else
    n ← dims T !! 0%nat ≫= as_int;
    c ← dims T !! 1%nat ≫= as_int;
    h ← dims T !! 2%nat ≫= as_int;
    w ← dims T !! 3%nat ≫= as_int;
    Some [describe d n c h w].

(** Marshaling: the requests an operator puts to the library for its
    blobs, and the buffers it holds; [None] when a blob is missing or the
    dispatch tensor does not hold floats or has no shape to marshal. *)
Definition marshal (o : operator) (w : World)
  : option (list request * registers) :=
  let handle := miopen_handle (context_ w) in
  match o with
  | op_LRN o =>
      let d := MIOPEN_LRNOP.data_desc_ o in
      X ← Inputs w !! 0%nat;
      _ ← Outputs w !! 0%nat;
      if decide (meta X = meta_float) then
        shape ← marshal_dims d (MIOPEN_LRNOP.miopen_input_dims_ o) X;
        Some (shape
              ++ [normalize handle (MIOPEN_LRNOP.norm_desc_ o)
                    (MIOPEN_LRNOP.alpha_ o) (MIOPEN_LRNOP.beta_ o) d
                    (of_blob (InputBlob 0)) (of_blob (OutputBlob 0))
                    false no_operand],
              {| measured := 0; workspace_at := 0; scratch_at := 0 |})
      else None
  | op_LRNGradient o =>
      let d := MIOPENLRNGradientOp.data_desc_ o in
      let norm := MIOPENLRNGradientOp.norm_desc_ o in
      let alpha := MIOPENLRNGradientOp.alpha_ o in
      let beta := MIOPENLRNGradientOp.beta_ o in
      let ws := MIOPENLRNGradientOp.bwdLRNWs_ o in
      let scratch := MIOPENLRNGradientOp.bwdLRNScratch_ o in
      X ← Inputs w !! 0%nat;
      _ ← Inputs w !! 1%nat;
      dY ← Inputs w !! 2%nat;
      _ ← Outputs w !! 0%nat;
      if decide (meta dY = meta_float) then
        shape ← marshal_dims d (MIOPENLRNGradientOp.miopen_input_dims_ o) dY;
        Some (shape
              ++ [measure d]
              ++ (if decide (ws = 0) then [reserve addr_bwdLRNWs None]
                  else [])
              ++ (if decide (scratch = 0)
                  then [reserve addr_bwdLRNScratch
                          (Some (times_sizeof_float
                                   (foldr Z.mul 1 (dims X))))]
                  else [])
              ++ [normalize handle norm alpha beta d
                    (of_blob (InputBlob 0)) (of_buffer addr_bwdLRNScratch)
                    true (of_buffer addr_bwdLRNWs);
                  differentiate handle norm alpha beta d
                    (of_blob (InputBlob 1)) (of_blob (InputBlob 2))
                    (of_blob (InputBlob 0)) (of_blob (OutputBlob 0))
                    (of_buffer addr_bwdLRNWs)],
              {| measured := 0; workspace_at := ws; scratch_at := scratch |})
      else None
  end.

(** The operator by delegation: marshaling composed with the library
    call. *)
Definition by_delegation (o : operator) (w : World)
  : verdict * device_state :=
  match marshal o w with
  | Some (requests, regs) => serve requests regs (mem w, lib w)
  | None => (rejected, (mem w, lib w))
  end.

(** How a run of the source ended, in the same terms. *)
Definition verdict_of (r : outcome bool) : verdict :=
  match r with
  | Ok _ => completed
  | Throw (MIOpenError st) => vendor_failure st
  | Throw (HIPError st) => runtime_failure st
  | Throw _ => rejected
  end.
End Delegation.

(** ** The life of an operator *)
Section Life.
Context `{Platform}.

(** One run: the object and the world it started in, its outcome, the
    object and the world it left. *)
Record run_record := {
  before : operator * World;
  result : outcome bool;
  after : operator * World;
}.

(** The operator is run once in each of the worlds the framework presents
    to it, in order; the object lives on from run to run. *)
Fixpoint life (o : operator) (worlds : list World) : list run_record :=
  match worlds with
  | [] => []
  | w :: rest =>
      let r := run o w in
      {| before := (o, w); result := r.1; after := r.2 |}
        :: life r.2.1 rest
  end.

Definition calls_of (r : run_record) : list event :=
  new_calls (before r).2 (after r).2.

(** The hyperparameters of an operator and its LRN descriptor. *)
Definition hyperparameters (o : operator)
  : miopenLRNDescriptor_t * miopenLRNMode_t * Z * float * float * float :=
  match o with
  | op_LRN o =>
      (MIOPEN_LRNOP.norm_desc_ o, MIOPEN_LRNOP.mode_ o,
       MIOPEN_LRNOP.size_ o, MIOPEN_LRNOP.alpha_ o, MIOPEN_LRNOP.beta_ o,
       MIOPEN_LRNOP.bias_ o)
  | op_LRNGradient o =>
      (MIOPENLRNGradientOp.norm_desc_ o, MIOPENLRNGradientOp.mode_ o,
       MIOPENLRNGradientOp.size_ o, MIOPENLRNGradientOp.alpha_ o,
       MIOPENLRNGradientOp.beta_ o, MIOPENLRNGradientOp.bias_ o)
  end.

(** What construction from [def] amounts to: the operator [o] holds the
    cross-channel mode, the [int] read from the argument "size" and the
    values of the arguments "alpha", "beta" and "bias" (0, 0, 0 and 1 when
    absent); the calls [evs] made create the two descriptors and hand the
    mode and these values to the LRN descriptor, alpha, beta and bias as
    they are and the size as the [unsigned int] the library takes, which
    is the size itself unless it is negative. *)
Definition constructed (def : OperatorDef) (o : operator)
    (evs : list event) : Prop :=
  let '(norm, mode, size, alpha, beta, bias) := hyperparameters o in
  mode = miopenLRNCrossChannel
  ∧ fits_int size
  ∧ int_argument def "size" 0 size
  ∧ float_argument def "alpha" (float_of_int 0) alpha
  ∧ float_argument def "beta" (float_of_int 0) beta
  ∧ float_argument def "bias" (float_of_int 1) bias
  ∧ ∃ lrnN,
      evs = [ call_CreateTensorDescriptor (data_desc o) miopenStatusSuccess;
              call_CreateLRNDescriptor norm miopenStatusSuccess;
              call_SetLRNDescriptor norm mode lrnN alpha beta bias
                                    miopenStatusSuccess ]
      ∧ lrnN = to_unsigned_int size
      ∧ (0 ≤ size → lrnN = size).

(** The arguments of a definition have the types the constructor of the
    class reads them with: "size" (and "do_backward", for the gradient
    operator) an integer, one that fits an [int] where the platform rejects
    the others; "alpha", "beta" and "bias" floats. *)
Definition is_int_argument (a : option Argument) : bool :=
  match a with
  | None => true
  | Some (arg_i i) =>
      bool_decide (fits_int i) || negb rejects_lossy_arguments
  | Some _ => false
  end.

Definition is_bool_argument (a : option Argument) : bool :=
  match a with None | Some (arg_i _) => true | Some _ => false end.

Definition is_float_argument (a : option Argument) : bool :=
  match a with None | Some (arg_f _) => true | Some _ => false end.

Definition well_typed (c : operator_class) (def : OperatorDef) : bool :=
  is_int_argument (arg def !! "size")
  && is_float_argument (arg def !! "alpha")
  && is_float_argument (arg def !! "beta")
  && is_float_argument (arg def !! "bias")
  && match c with
     | class_MIOPEN_LRNOP => true
     | class_MIOPENLRNGradientOp =>
         is_bool_argument (arg def !! "do_backward")
     end.

(** How construction from [def] ends, with the calls [evs]: with the
    operator constructed, or in the fatal failure that carries the status
    of the last call made. *)
Definition construction_ends (def : OperatorDef) (r : outcome operator)
    (evs : list event) : Prop :=
  match r with
  | Ok o => constructed def o evs
  | Throw e =>
      ∃ ev st, last evs = Some ev ∧ miopen_status ev = Some st
               ∧ st ≠ miopenStatusSuccess ∧ e = MIOpenError st
  end.

(** The size is passed unchanged: the LRN descriptor is handed the integer
    that the argument "size" holds. *)
Definition size_passed_unchanged (def : OperatorDef) (evs : list event)
  : Prop :=
  ∀ i, arg def !! "size" = Some (arg_i i) →
    ∃ d mode alpha beta k st,
      call_SetLRNDescriptor d mode i alpha beta k st ∈ evs.

(** No run touches the hyperparameters or sets the LRN descriptor. *)
Definition keeps_hyperparameters (o o' : operator) (evs : list event)
  : Prop :=
  hyperparameters o' = hyperparameters o
  ∧ ∀ e, e ∈ evs → is_SetLRNDescriptor e = false.

(** The world once the first output has taken the shape of [T]. *)
Definition resized (T : Tensor) (w : World) : World :=
  set_Outputs
    (alter (λ t, {| dims := dims T; meta := meta t |}) 0%nat (Outputs w)) w.

Definition resize {Self} (T : Tensor) (s : state Self) : state Self :=
  Build_state (this s) (resized T (world s)).

(** [DoRunWithType<float, float>] of the operator's class. *)
Definition run_with_type (o : operator) (w : World)
  : outcome bool * (operator * World) :=
  match o with
  | op_LRN o => on_instance op_LRN MIOPEN_LRNOP.DoRunWithType o w
  | op_LRNGradient o =>
      on_instance op_LRNGradient MIOPENLRNGradientOp.DoRunWithType o w
  end.

(** A shape the run can hand to the library: the cached one, or one with
    four leading dimensions that fit an [int]. *)
Definition marshalable (cached shape : list Z) : Prop :=
  shape = cached
  ∨ ∃ n c h w, marshal_shape shape = Some (n, c, h, w)
               ∧ n < INT_MAX ∧ c < INT_MAX ∧ h < INT_MAX ∧ w < INT_MAX.

(** The dispatch of [RunOnDevice] on the element type of [T], for a run of
    [o] in [w]: other than float, the run fails with the fatal error
    "Unsupported input type" and has made no call at all; float, the run
    is the typed run, which calls the library when the shape is
    marshalable.  Either way the output has been resized. *)
Definition dispatches_on (T : Tensor) (o : operator) (w : World) : Prop :=
  let w0 := resized T w in
  (meta T ≠ meta_float →
     run o w = (Throw (EnforceNotMet "Unsupported input type"), (o, w0))
     ∧ new_calls w w0 = [] ∧ lib w0 = lib w)
  ∧ (meta T = meta_float →
       run o w = run_with_type o w0
       ∧ (marshalable (cached_dims o) (dims T) →
          new_calls w (run o w).2.2 ≠ [])).

Definition class_of (o : operator) : operator_class :=
  match o with
  | op_LRN _ => class_MIOPEN_LRNOP
  | op_LRNGradient _ => class_MIOPENLRNGradientOp
  end.

(** The numbers of inputs and outputs of a class: X and Y for the forward
    operator; X, Y, dY and dX for the gradient operator. *)
Definition arity (c : operator_class) : nat * nat :=
  match c with
  | class_MIOPEN_LRNOP => (1, 1)
  | class_MIOPENLRNGradientOp => (3, 1)
  end%nat.

(** A run with outcome [r] in world [w] used [n_in] inputs and [n_out]
    outputs: with fewer it fails for want of a blob, with that many it
    does not. *)
Definition uses_blobs (n : nat * nat) (w : World) (r : outcome bool)
  : Prop :=
  ((length (Inputs w) < n.1 ∨ length (Outputs w) < n.2)%nat →
   ∃ what, r = Throw (OutOfRange what))
  ∧ ((n.1 ≤ length (Inputs w))%nat → (n.2 ≤ length (Outputs w))%nat →
     ∀ what, r ≠ Throw (OutOfRange what)).

(** What the registry holds: the two names, each bound to its class, and
    an operator created for a class is of that class. *)
Definition two_operators (reg : gmap string operator_class) : Prop :=
  dom reg = {[ "LRN"; "LRNGradient" ]}
  ∧ reg !! "LRN" = Some class_MIOPEN_LRNOP
  ∧ reg !! "LRNGradient" = Some class_MIOPENLRNGradientOp
  ∧ ∀ c def w o w', create c def w = (Ok o, w') → class_of o = c.

(** The device buffers that belong to the operator alone. *)
Definition private_buffers (o : operator) : list ptr :=
  match o with
  | op_LRN _ => []
  | op_LRNGradient o =>
      [ device (MIOPENLRNGradientOp.bwdLRNWs_ o);
        device (MIOPENLRNGradientOp.bwdLRNScratch_ o) ]
  end.

(** From world [w] to world [w'], nothing was written but the first
    output tensor and the storage in [allowed]: the input tensors, their
    storage and the other outputs are as they were. *)
Definition writes_only (allowed : list ptr) (w w' : World) : Prop :=
  Inputs w' = Inputs w
  ∧ (∀ i, mem w' !! data_of (InputBlob i) = mem w !! data_of (InputBlob i))
  ∧ (∀ i, i ≠ 0%nat → Outputs w' !! i = Outputs w !! i)
  ∧ (∀ p, p ∉ allowed → mem w' !! p = mem w !! p).

(** The device buffer an operator keeps in a member; the forward operator
    has no such member. *)
Definition kept (dst : member) (o : operator) : Z :=
  match o, dst with
  | op_LRN _, _ => 0
  | op_LRNGradient o, addr_bwdLRNWs => MIOPENLRNGradientOp.bwdLRNWs_ o
  | op_LRNGradient o, addr_bwdLRNScratch =>
      MIOPENLRNGradientOp.bwdLRNScratch_ o
  end.

(** The size a run asks for when it allocates the buffer of a member: for
    the workspace the size its query returned, for the scratch buffer
    [X.size() * sizeof(float)] of its own X. *)
Definition requested (dst : member) (w : World) (evs : list event)
    (size : Z) : Prop :=
  match dst with
  | addr_bwdLRNWs =>
      ∃ d, call_LRNGetWorkSpaceSize d size miopenStatusSuccess ∈ evs
  | addr_bwdLRNScratch =>
      ∃ X, Inputs w !! 0%nat = Some X
           ∧ size = times_sizeof_float (foldr Z.mul 1 (dims X))
  end.

(** One run, from operator [o] in world [w] to operator [o'] with the
    calls [evs], treats the buffer of member [dst] lazily: it frees
    nothing; a buffer that is there is kept and not allocated again; the
    run allocates at most once, only when it found the member null, with
    the size it requested, and the member then holds what [hipMalloc]
    returned. *)
Definition allocates_lazily (dst : member) (o : operator) (w : World)
    (o' : operator) (evs : list event) : Prop :=
  (∀ e, e ∈ evs → is_hipFree e = false)
  ∧ (kept dst o ≠ 0 →
     kept dst o' = kept dst o ∧ ∀ e, e ∈ evs → is_hipMalloc dst e = false)
  ∧ (length (List.filter (is_hipMalloc dst) evs) ≤ 1)%nat
  ∧ (∀ size out st, call_hipMalloc dst size out st ∈ evs →
       kept dst o = 0 ∧ kept dst o' = out ∧ requested dst w evs size).

(** The run sets the tensor descriptor at most once, and only when the
    dims of its dispatch tensor are not the cached ones; they are the
    cached ones from then on. *)
Definition resets_descriptor_on_change (o : operator) (w : World)
    (o' : operator) (evs : list event) : Prop :=
  (length (List.filter is_Set4dTensorDescriptor evs) ≤ 1)%nat
  ∧ (∀ e, e ∈ evs → is_Set4dTensorDescriptor e = true →
       ∃ T, Inputs w !! dispatch_tensor o = Some T
            ∧ dims T ≠ cached_dims o ∧ cached_dims o' = dims T).

(** The same over a life: every run is lazy, and a buffer that is there
    after some run is the same after every later run, none of which
    allocates it. *)
Definition lazy_for_life (dst : member) (o : operator)
    (worlds : list World) : Prop :=
  (∀ r, r ∈ life o worlds →
     allocates_lazily dst (before r).1 (before r).2 (after r).1 (calls_of r)
     ∧ resets_descriptor_on_change (before r).1 (before r).2 (after r).1
                                   (calls_of r))
  ∧ (∀ i j ri rj, (i < j)%nat →
       life o worlds !! i = Some ri → life o worlds !! j = Some rj →
       kept dst (after ri).1 ≠ 0 →
       kept dst (after rj).1 = kept dst (after ri).1
       ∧ ∀ e, e ∈ calls_of rj → is_hipMalloc dst e = false).

Definition allocates (r : run_record) : Prop :=
  ∃ dst, existsb (is_hipMalloc dst) (calls_of r) = true.

(** Allocation happens on the first run and on no other. *)
Definition allocates_on_first_run_only (o : operator)
    (worlds : list World) : Prop :=
  ∀ i r, life o worlds !! i = Some r → allocates r → i = 0%nat.
End Life.

(** ** The whole of a run, and the end of a life *)
Section Whole.
Context `{Platform}.

(** The virtual destructor. *)
Definition destroy (o : operator) (w : World)
  : outcome unit * (operator * World) :=
  match o with
  | op_LRN o => on_instance op_LRN MIOPEN_LRNOP.delete o w
  | op_LRNGradient o =>
      on_instance op_LRNGradient MIOPENLRNGradientOp.delete o w
  end.

(** The object at the end of a life. *)
Fixpoint after_life (o : operator) (worlds : list World) : operator :=
  match worlds with
  | [] => o
  | w :: rest => after_life (run o w).2.1 rest
  end.

(** All the calls of a life, run after run. *)
Definition life_calls (o : operator) (worlds : list World) : list event :=
  concat (calls_of <$> life o worlds).

Definition norm_desc (o : operator) : miopenLRNDescriptor_t :=
  match o with
  | op_LRN o => MIOPEN_LRNOP.norm_desc_ o
  | op_LRNGradient o => MIOPENLRNGradientOp.norm_desc_ o
  end.

(** The buffer behind a [float*] member, if there is one. *)
Definition nonnull (p : Z) : list Z := if decide (p = 0) then [] else [p].

(** The buffers an operator holds: the workspace, then the scratch
    buffer. *)
Definition held (o : operator) : list Z :=
  nonnull (kept addr_bwdLRNWs o) ++ nonnull (kept addr_bwdLRNScratch o).

(** The address a call handed to [hipFree]. *)
Definition freed_address (e : event) : option ptr :=
  match e with call_hipFree p _ => Some p | _ => None end.

(** The address a call to [hipMalloc] stored in the member [dst], when it
    is not null. *)
Definition stored (dst : member) (e : event) : option Z :=
  match e with
  | call_hipMalloc dst' _ out _ =>
      if same_member dst' dst
      then (if decide (out = 0) then None else Some out)
      else None
  | _ => None
  end.

(** How the destructor of the gradient operator ends, from [s] to [s'] with
    outcome [r].  Completed: it has destroyed the two descriptors with
    success, then handed to [hipFree] the workspace and the scratch buffer
    that were there, in this order and whatever [hipFree] returned, and the
    two members are null.  Failed: the failure is the status of a destroy
    call, nothing was freed and the members are as they were. *)
Definition gradient_destructor_ends (s : state MIOPENLRNGradientOp.t)
    (r : outcome unit) (s' : state MIOPENLRNGradientOp.t) : Prop :=
  let o := this s in
  match r with
  | Ok _ =>
      ∃ frees,
        new_calls s s' =
          [ call_DestroyTensorDescriptor (MIOPENLRNGradientOp.data_desc_ o)
                                         miopenStatusSuccess;
            call_DestroyLRNDescriptor (MIOPENLRNGradientOp.norm_desc_ o)
                                      miopenStatusSuccess ] ++ frees
        ∧ (∀ e, e ∈ frees → is_hipFree e = true)
        ∧ omap freed_address frees = device <$> held (op_LRNGradient o)
        ∧ held (op_LRNGradient (this s')) = []
  | Throw e =>
      (∃ st, e = MIOpenError st ∧ st ≠ miopenStatusSuccess)
      ∧ (∀ ev, ev ∈ new_calls s s' → is_hipFree ev = false)
      ∧ this s' = o
  end.

(** The calls of a destructor that completes, for an operator with the
    descriptors [d] and [norm]: the two destroy calls, then calls to
    [hipFree] only. *)
Definition destroys (d : miopenTensorDescriptor_t)
    (norm : miopenLRNDescriptor_t) (evs : list event) : Prop :=
  ∃ frees,
    evs = [ call_DestroyTensorDescriptor d miopenStatusSuccess;
            call_DestroyLRNDescriptor norm miopenStatusSuccess ] ++ frees
    ∧ ∀ e, e ∈ frees → is_hipFree e = true.

(** The calls that construction made created the descriptors [d] and
    [norm]. *)
Definition creates (d : miopenTensorDescriptor_t)
    (norm : miopenLRNDescriptor_t) (evs : list event) : Prop :=
  call_CreateTensorDescriptor d miopenStatusSuccess ∈ evs
  ∧ call_CreateLRNDescriptor norm miopenStatusSuccess ∈ evs.

(** What an operator acquires it releases: the calls of its construction
    created the two descriptors that the calls of its destruction destroy,
    and the buffers freed at destruction are, one for one, the non-null
    addresses that [hipMalloc] stored in the workspace and in the scratch
    member while the operator ran. *)
Definition released (o : operator)
    (construction running destruction : list event) : Prop :=
  creates (data_desc o) (norm_desc o) construction
  ∧ destroys (data_desc o) (norm_desc o) destruction
  ∧ omap freed_address destruction
    = device <$> (omap (stored addr_bwdLRNWs) running
                  ++ omap (stored addr_bwdLRNScratch) running).

(** The calls a run may make: the forward operator sets the tensor
    descriptor and calls the forward entry point; the gradient operator
    also queries the workspace size, allocates, and calls the backward
    entry point.  No run creates or destroys a descriptor, sets the LRN
    descriptor or frees memory. *)
Definition run_call (o : operator) (e : event) : bool :=
  match o, e with
  | _, call_Set4dTensorDescriptor _ _ _ _ _ _ _
  | _, call_LRNForward _ _ _ _ _ _ _ _ _ _ _
  | op_LRNGradient _, call_LRNGetWorkSpaceSize _ _ _
  | op_LRNGradient _, call_hipMalloc _ _ _ _
  | op_LRNGradient _, call_LRNBackward _ _ _ _ _ _ _ _ _ _ _ _ _ _ => true
  | _, _ => false
  end.

(** The call that sets the descriptor [d] for [shape], when [shape] is not
    the cached one. *)
Definition reshape_calls (d : miopenTensorDescriptor_t)
    (cached shape : list Z) : list event :=
  if decide (shape = cached) then []
  else match marshal_shape shape with
       | Some (n, c, h, w) =>
           [call_Set4dTensorDescriptor d miopenFloat n c h w
                                       miopenStatusSuccess]
       | None => []
       end.

(** The call that allocates the buffer of [dst], when the member [p] is
    null; [p'] is the member afterwards. *)
Definition allocation_calls (dst : member) (p size p' : Z) : list event :=
  if decide (p = 0) then [call_hipMalloc dst size p' hipSuccess] else [].

(** All the calls of a run of the forward operator [o] on [X] that
    completes. *)
Definition LRN_calls (o : MIOPEN_LRNOP.t) (h : miopenHandle_t) (X : Tensor)
  : list event :=
  let d := MIOPEN_LRNOP.data_desc_ o in
  reshape_calls d (MIOPEN_LRNOP.miopen_input_dims_ o) (dims X)
  ++ [ call_LRNForward h (MIOPEN_LRNOP.norm_desc_ o) (MIOPEN_LRNOP.alpha_ o)
         d (data_of (InputBlob 0)) (MIOPEN_LRNOP.beta_ o)
         d (data_of (OutputBlob 0)) false nullptr miopenStatusSuccess ].

(** All the calls of a run of the gradient operator on [X] and [dY] that
    completes, from the object [o] to the object [o'], the size query
    having returned [ws_size]: the descriptor, the query, the two
    allocations, then the forward and the backward call of
    [gradient_sequence]. *)
Definition LRNGradient_calls (o o' : MIOPENLRNGradientOp.t)
    (h : miopenHandle_t) (X dY : Tensor) (ws_size : Z) : list event :=
  let d := MIOPENLRNGradientOp.data_desc_ o in
  reshape_calls d (MIOPENLRNGradientOp.miopen_input_dims_ o) (dims dY)
  ++ [call_LRNGetWorkSpaceSize d ws_size miopenStatusSuccess]
  ++ allocation_calls addr_bwdLRNWs (MIOPENLRNGradientOp.bwdLRNWs_ o)
       ws_size (MIOPENLRNGradientOp.bwdLRNWs_ o')
  ++ allocation_calls addr_bwdLRNScratch
       (MIOPENLRNGradientOp.bwdLRNScratch_ o)
       (times_sizeof_float (foldr Z.mul 1 (dims X)))
       (MIOPENLRNGradientOp.bwdLRNScratch_ o')
  ++ drop 1 (gradient_sequence o' h ws_size miopenStatusSuccess
               miopenStatusSuccess miopenStatusSuccess).

(** The calls [evs] of a run check every allocation: a [hipMalloc] that
    returned a status other than success is the last call, the run ends in
    the fatal failure that carries the status, and the member holds what
    the call stored. *)
Definition allocations_checked (o' : operator) (r : outcome bool)
    (evs : list event) : Prop :=
  ∀ dst size out st,
    call_hipMalloc dst size out st ∈ evs → st ≠ hipSuccess →
    r = Throw (HIPError st)
    ∧ last evs = Some (call_hipMalloc dst size out st)
    ∧ kept dst o' = out.

(** A call of an operator that writes the storage of its output tensor:
    the forward call of the forward operator, the backward call of the
    gradient operator. *)
Definition writes_output (o : operator) (e : event) : bool :=
  match o, e with
  | op_LRN _, call_LRNForward _ _ _ _ _ _ _ _ _ _ _
  | op_LRNGradient _, call_LRNBackward _ _ _ _ _ _ _ _ _ _ _ _ _ _ => true
  | _, _ => false
  end.

(** In a run from [w] to [w'] with the calls [evs], the call that writes
    the output is the last one, and without it the storage of the output
    is as it was. *)
Definition writes_output_last (o : operator) (w w' : World)
    (evs : list event) : Prop :=
  (∀ e, e ∈ evs → writes_output o e = true → last evs = Some e)
  ∧ ((∀ e, e ∈ evs → writes_output o e = false) →
     mem w' !! data_of (OutputBlob 0) = mem w !! data_of (OutputBlob 0)).

(** The operator has the buffers it needs: none for the forward operator,
    the workspace and the scratch buffer for the gradient operator. *)
Definition has_buffers (o : operator) : bool :=
  match o with
  | op_LRN _ => true
  | op_LRNGradient o =>
      negb (Z.eqb (MIOPENLRNGradientOp.bwdLRNWs_ o) 0)
      && negb (Z.eqb (MIOPENLRNGradientOp.bwdLRNScratch_ o) 0)
  end.

(** The same object, with another value of [do_backward_]. *)
Definition with_do_backward (b : bool) (o : MIOPENLRNGradientOp.t)
  : MIOPENLRNGradientOp.t :=
  {| MIOPENLRNGradientOp.data_desc_ := MIOPENLRNGradientOp.data_desc_ o;
     MIOPENLRNGradientOp.norm_desc_ := MIOPENLRNGradientOp.norm_desc_ o;
     MIOPENLRNGradientOp.miopen_input_dims_ :=
       MIOPENLRNGradientOp.miopen_input_dims_ o;
     MIOPENLRNGradientOp.mode_ := MIOPENLRNGradientOp.mode_ o;
     MIOPENLRNGradientOp.size_ := MIOPENLRNGradientOp.size_ o;
     MIOPENLRNGradientOp.alpha_ := MIOPENLRNGradientOp.alpha_ o;
     MIOPENLRNGradientOp.beta_ := MIOPENLRNGradientOp.beta_ o;
     MIOPENLRNGradientOp.bias_ := MIOPENLRNGradientOp.bias_ o;
     MIOPENLRNGradientOp.do_backward_ := b;
     MIOPENLRNGradientOp.bwdLRNWs_ := MIOPENLRNGradientOp.bwdLRNWs_ o;
     MIOPENLRNGradientOp.bwdLRNScratch_ :=
       MIOPENLRNGradientOp.bwdLRNScratch_ o |}.

(** A method of the gradient operator does not read [do_backward_]: run on
    the object with another value of the member, it ends with the same
    outcome, in the same world, and with the same object but for that
    member. *)
Definition ignores_do_backward {A} (m : M (state MIOPENLRNGradientOp.t) A)
  : Prop :=
  ∀ b s,
    let a := m s in
    let a' := m (Build_state (with_do_backward b (this s)) (world s)) in
    a'.1 = a.1 ∧ world a'.2 = world a.2
    ∧ this a'.2 = with_do_backward b (this a.2).

(** The same world, with other input tensors. *)
Definition set_Inputs (i : list Tensor) (w : World) : World :=
  {| Inputs := i; Outputs := Outputs w; mem := mem w; lib := lib w;
     trace := trace w; context_ := context_ w |}.

(** Two runs of the gradient operator went the same way: the same
    outcome, the same object, the same calls, and the same world but for
    the inputs. *)
Definition same_run (a b : outcome bool * state MIOPENLRNGradientOp.t)
  : Prop :=
  a.1 = b.1 ∧ this a.2 = this b.2
  ∧ trace (world a.2) = trace (world b.2)
  ∧ mem (world a.2) = mem (world b.2)
  ∧ lib (world a.2) = lib (world b.2)
  ∧ Outputs (world a.2) = Outputs (world b.2).
End Whole.

(** * Proofs *)

(** ** Running a method symbolically *)

Section Arguments.
Context `{Platform} {S : Type} `{!HasWorld S}.

Lemma GetSingleArgument_int_run def name default (s : S) :
  (∃ v, GetSingleArgument_int def name default s = (Ok v, s)
        ∧ int_argument def name default v)
  ∨ (∃ msg, GetSingleArgument_int def name default s
            = (Throw (EnforceNotMet msg), s)
            ∧ is_int_argument (arg def !! name) = false).
Proof.
  unfold GetSingleArgument_int, int_argument, is_int_argument, CAFFE_THROW.
  destruct (arg def !! name) as [[v|v|v]|]; eauto.
  destruct (decide (fits_int v)); [by eauto 10|].
  rewrite bool_decide_eq_false_2 by done.
  destruct rejects_lossy_arguments eqn:?; by eauto 10.
Qed.

Lemma GetSingleArgument_float_run def name default (s : S) :
  (∃ v, GetSingleArgument_float def name default s = (Ok v, s)
        ∧ float_argument def name default v)
  ∨ (∃ msg, GetSingleArgument_float def name default s
            = (Throw (EnforceNotMet msg), s)
            ∧ is_float_argument (arg def !! name) = false).
Proof.
  unfold GetSingleArgument_float, float_argument, is_float_argument,
    CAFFE_THROW.
  destruct (arg def !! name) as [[v|v|v]|]; eauto.
Qed.

Lemma GetSingleArgument_bool_run def name default (s : S) :
  (∃ v, GetSingleArgument_bool def name default s = (Ok v, s))
  ∨ (∃ msg, GetSingleArgument_bool def name default s
            = (Throw (EnforceNotMet msg), s)
            ∧ is_bool_argument (arg def !! name) = false).
Proof.
  unfold GetSingleArgument_bool, is_bool_argument, CAFFE_THROW.
  destruct (arg def !! name) as [[v|v|v]|]; eauto.
Qed.
End Arguments.

(** Reading the arguments of the constructor: one case for the value, one
    for the failure. *)
Ltac read_argument :=
  match goal with
  | |- context [GetSingleArgument_int ?d ?n ?v ?s] =>
      destruct (GetSingleArgument_int_run d n v s)
        as [(? & -> & ?)|(? & -> & ?)]
  | |- context [GetSingleArgument_float ?d ?n ?v ?s] =>
      destruct (GetSingleArgument_float_run d n v s)
        as [(? & -> & ?)|(? & -> & ?)]
  | |- context [GetSingleArgument_bool ?d ?n ?v ?s] =>
      destruct (GetSingleArgument_bool_run d n v s)
        as [(? & ->)|(? & -> & ?)]
  end.

Ltac unfold_monad :=
  unfold mbind, M_bind, mret, M_ret, mthrow, M_throw in *.

Ltac unfold_framework :=
  unfold Input, Output, ResizeLike, IsType, Tensor_dims, dim32, Tensor_size,
    data, mutable_data, update_output, deref, on_world, inline_miopen_handle,
    CAFFE_THROW, MIOPEN_ENFORCE, HIP_CHECK, assign, member_, gets, modify
    in *.

Ltac unfold_library :=
  unfold miopenCreateTensorDescriptor, miopenCreateLRNDescriptor,
    miopenSetLRNDescriptor, miopenSet4dTensorDescriptor,
    miopenDestroyTensorDescriptor, miopenDestroyLRNDescriptor,
    miopenLRNGetWorkSpaceSize, hipMalloc, hipFree, miopenLRNForward,
    miopenLRNBackward, call in *.

Ltac simpl_run :=
  cbn -[decide bool_decide written times_sizeof_float INT_MAX INT_MIN
        to_int to_unsigned_int
        GetSingleArgument_int GetSingleArgument_float GetSingleArgument_bool]
    in *.

Ltac simpl_goal :=
  cbn -[decide bool_decide written times_sizeof_float INT_MAX INT_MIN
        to_int to_unsigned_int
        GetSingleArgument_int GetSingleArgument_float GetSingleArgument_bool].

(** Split on the innermost scrutinee of the goal, unless its value is
    known. *)
Ltac split_goal :=
  match goal with
  | |- context [match ?x with _ => _ end] =>
      lazymatch x with
      | context [match _ with _ => _ end] => fail
      | alter _ ?i _ !! ?i => rewrite list_lookup_alter_eq
      | _ <$> ?y =>
          first [ match goal with H : y = _ |- _ => rewrite H end
                | destruct y eqn:? ]
      | _ =>
          first [ match goal with H : x = _ |- _ => rewrite H end
                | destruct x eqn:? ]
      end
  end.

(** Follow every path of the method to its end. *)
Ltac exec :=
  unfold_library; unfold_framework; unfold_monad;
  repeat (progress simpl_goal || read_argument || split_goal);
  simplify_eq.

(** At the end of a path: the calls made are the entries appended to the
    log. *)
Ltac log_calls :=
  unfold calls; simpl_run; rewrite <- ?(assoc_L (++)); simpl_run;
  first [ eexists; split; [reflexivity|]
        | exists []; split; [symmetry; apply app_nil_r|] ].

Ltac each_call H :=
  repeat (apply elem_of_cons in H as [->|H]); try (by apply elem_of_nil in H).

(** On every path: the calls made are logged, and a call that returned a
    status other than success is the last one, its status the failure. *)
Ltac codes :=
  intros ?; exec; log_calls;
  (let Hin := fresh "Hin" in
   intros ? ? Hin ? ?; each_call Hin; simpl_run; simplify_eq; done).

(** C1.  Every status returned by a MIOpen call (descriptor create, set and
    destroy, workspace-size query, LRN forward, LRN backward) is checked:
    in the constructor, the destructor and [RunOnDevice] of both operators,
    a call that returns a status other than success is the last call made,
    and the method ends in the fatal failure that carries that status. *)
Theorem vendor_codes_are_fatal `{Platform} (def : OperatorDef) :
  propagates_codes (MIOPEN_LRNOP.new def)
  ∧ propagates_codes MIOPEN_LRNOP.RunOnDevice
  ∧ propagates_codes MIOPEN_LRNOP.delete
  ∧ propagates_codes (MIOPENLRNGradientOp.new def)
  ∧ propagates_codes MIOPENLRNGradientOp.RunOnDevice
  ∧ propagates_codes MIOPENLRNGradientOp.delete.
Proof.
  repeat split.
  - unfold MIOPEN_LRNOP.new. codes.
  - unfold MIOPEN_LRNOP.RunOnDevice, MIOPEN_LRNOP.DoRunWithType. codes.
  - unfold MIOPEN_LRNOP.delete. codes.
  - unfold MIOPENLRNGradientOp.new. codes.
  - unfold MIOPENLRNGradientOp.RunOnDevice, MIOPENLRNGradientOp.DoRunWithType.
    codes.
  - unfold MIOPENLRNGradientOp.delete. codes.
Qed.

(** ** The order of the gradient's calls *)

(** At the end of a path: compute the calls made. *)
Ltac count_calls :=
  unfold new_calls; simpl_goal; rewrite <- ?(assoc_L (++));
  rewrite ?drop_app_length, ?drop_all; simpl_goal.

Lemma run_elim {S A} (m : M S A) (s : S) (P : outcome A → S → Prop) :
  P (m s).1 (m s).2 → ∀ r s', m s = (r, s') → P r s'.
Proof. intros HP r s' E. by rewrite E in HP. Qed.

(** From a hypothesis [m s = (r, s')] to a goal about the run itself. *)
Ltac of_run E :=
  match type of E with
  | _ = (?r, ?s') => pattern r, s'; revert r s' E; apply run_elim
  end.

(** C2, as amended.  A run of the gradient operator that completes without a
    fatal failure has called, in this order: the workspace-size query, the
    forward entry point (from X into the scratch buffer, with the
    workspace), and the backward entry point (from Y, dY and X into dX, with
    the workspace); all three returned success.  This holds for every such
    run, the first as well as the later ones.  A run that ends in a fatal
    failure has made an initial part of this sequence. *)
Theorem gradient_entry_points_in_order `{Platform}
    (s s' : state MIOPENLRNGradientOp.t) (r : outcome bool) :
  MIOPENLRNGradientOp.RunOnDevice s = (r, s') →
  ∃ ws_size st1 st2 st3,
    let full := gradient_sequence (this s')
                  (miopen_handle (context_ (world s))) ws_size st1 st2 st3 in
    entry_points (new_calls s s') `prefix_of` full
    ∧ (∀ b, r = Ok b →
         entry_points (new_calls s s') = full
         ∧ st1 = miopenStatusSuccess ∧ st2 = miopenStatusSuccess
         ∧ st3 = miopenStatusSuccess).
Proof.
  unfold MIOPENLRNGradientOp.RunOnDevice, MIOPENLRNGradientOp.DoRunWithType.
  intros E. of_run E. exec.
  all: count_calls; unfold entry_points, gradient_sequence; simpl_run.
  all: eexists _, _, _, _; (split; [eexists; reflexivity|]).
  all: intros; by simplify_eq.
  Unshelve. all: exact 0.
Qed.

Lemma gradient_entry_points_in_order_witness :
  let s := Scripted.gradient_start in
  let s' := (MIOPENLRNGradientOp.RunOnDevice s).2 in
  MIOPENLRNGradientOp.RunOnDevice s = (Ok true, s')
  ∧ ∃ ws_size st1 st2 st3,
      let full := gradient_sequence (this s') 7 ws_size st1 st2 st3 in
      entry_points (new_calls s s') `prefix_of` full
      ∧ (∀ b, Ok true = Ok b →
           entry_points (new_calls s s') = full
           ∧ st1 = miopenStatusSuccess ∧ st2 = miopenStatusSuccess
           ∧ st3 = miopenStatusSuccess).
Proof.
  intros s s'.
  assert (MIOPENLRNGradientOp.RunOnDevice s = (Ok true, s')) as E
    by (vm_compute; reflexivity).
  split; [exact E|].
  exact (gradient_entry_points_in_order s s' (Ok true) E).
Defined.

(** C2, as it was stated, fails: here dY holds floats, the size query
    returns status 5, and the run ends without a call to the forward or the
    backward entry point. *)
Lemma gradient_run_without_forward_pass :
  let s := Scripted.gradient_start_failing_query in
  let s' := (MIOPENLRNGradientOp.RunOnDevice s).2 in
  meta <$> Inputs (world s) !! 2%nat = Some meta_float
  ∧ (MIOPENLRNGradientOp.RunOnDevice s).1 = Throw (MIOpenError 5)
  ∧ entry_points (new_calls s s') = [call_LRNGetWorkSpaceSize 16 256 5]
  ∧ ¬ invokes_both s s'.
Proof.
  intros s s'. split; [reflexivity|]. split; [reflexivity|].
  assert (entry_points (new_calls s s') = [call_LRNGetWorkSpaceSize 16 256 5])
    as Hcalls by (vm_compute; reflexivity).
  split; [exact Hcalls|].
  intros (ws_size & st1 & st2 & st3 & E).
  rewrite Hcalls in E. discriminate E.
Qed.

(** ** Marshaling the shape *)

(** Back from the virtual [run] to the method of the class. *)
Ltac of_virtual o :=
  destruct o as [o|o]; unfold run, on_instance in *; case_match.

Section Shape.
Context `{Platform}.

(** What the tests a path has passed say. *)
Ltac tested :=
  repeat match goal with
    | H : decide _ = _ |- _ => clear H
    | H : bool_decide _ = false |- _ => apply bool_decide_eq_false in H
    | H : ¬ (_ ≠ _) |- _ => apply dec_stable in H
    end.

Ltac in_run :=
  exec; count_calls; tested; try done;
  (split; [done|]);
  (split; [let Hin := fresh "Hin" in let Hd := fresh "Hd" in
           intros ? ? Hin Hd; each_call Hin; simpl_run; by each_call Hd|]);
  (split; [intros ?; try done; eexists _, _; (split; [reflexivity|]);
           (split; [done|]); by intros ?
          | by intros ? ]).

Lemma LRN_marshals_in_run (s : state MIOPEN_LRNOP.t) X Y n c h w :
  Inputs (world s) !! 0%nat = Some X →
  Outputs (world s) !! 0%nat = Some Y →
  meta X = meta_float → dims X = [n; c; h; w] →
  n < INT_MAX → c < INT_MAX → h < INT_MAX → w < INT_MAX →
  let a := MIOPEN_LRNOP.RunOnDevice s in
  let d := MIOPEN_LRNOP.data_desc_ (this s) in
  let evs := new_calls s a.2 in
  evs ≠ []
  ∧ (∀ e d', e ∈ evs → d' ∈ descriptors_of e → d' = d)
  ∧ ([n; c; h; w] ≠ MIOPEN_LRNOP.miopen_input_dims_ (this s) →
     ∃ st rest,
       evs = call_Set4dTensorDescriptor d miopenFloat n c h w st :: rest
       ∧ set_calls rest = []
       ∧ (st ≠ miopenStatusSuccess →
          rest = [] ∧ a.1 = Throw (MIOpenError st)))
  ∧ ([n; c; h; w] = MIOPEN_LRNOP.miopen_input_dims_ (this s) →
     set_calls evs = []).
Proof.
  destruct s as [[d norm cached mode size alpha beta bias] ws].
  destruct X as [dx tx].
  unfold MIOPEN_LRNOP.RunOnDevice, MIOPEN_LRNOP.DoRunWithType.
  simpl. intros HX HY -> -> Hn Hc Hh Hw. in_run.
Qed.

Lemma LRNGradient_marshals_in_run (s : state MIOPENLRNGradientOp.t)
    X Y dY dX n c h w :
  Inputs (world s) !! 0%nat = Some X →
  Inputs (world s) !! 1%nat = Some Y →
  Inputs (world s) !! 2%nat = Some dY →
  Outputs (world s) !! 0%nat = Some dX →
  meta dY = meta_float → dims dY = [n; c; h; w] →
  n < INT_MAX → c < INT_MAX → h < INT_MAX → w < INT_MAX →
  let a := MIOPENLRNGradientOp.RunOnDevice s in
  let d := MIOPENLRNGradientOp.data_desc_ (this s) in
  let evs := new_calls s a.2 in
  evs ≠ []
  ∧ (∀ e d', e ∈ evs → d' ∈ descriptors_of e → d' = d)
  ∧ ([n; c; h; w] ≠ MIOPENLRNGradientOp.miopen_input_dims_ (this s) →
     ∃ st rest,
       evs = call_Set4dTensorDescriptor d miopenFloat n c h w st :: rest
       ∧ set_calls rest = []
       ∧ (st ≠ miopenStatusSuccess →
          rest = [] ∧ a.1 = Throw (MIOpenError st)))
  ∧ ([n; c; h; w] = MIOPENLRNGradientOp.miopen_input_dims_ (this s) →
     set_calls evs = []).
Proof.
  destruct s as [[d norm cached mode size alpha beta bias db ws scratch] wd].
  destruct dY as [dy ty].
  unfold MIOPENLRNGradientOp.RunOnDevice, MIOPENLRNGradientOp.DoRunWithType.
  simpl. intros HX HY HdY HdX -> -> Hn Hc Hh Hw. in_run.
Qed.
(** A run keeps the cached dims in step with the calls. *)
Ltac stepped Hinv :=
  unfold in_step, last_set_to, set_calls in *; simpl in Hinv;
  exec; count_calls; tested; (split; [done|]);
  (let Hc := fresh "Hc" in
   intros ? ? ? ? Hc ? ? ? ?;
   rewrite List.filter_app; simpl_goal;
   first
     [ rewrite app_nil_r; by apply Hinv
     | repeat match goal with t : Tensor |- _ => destruct t end;
       simpl in *; subst; simpl in *; simplify_eq;
       first [ rewrite last_snoc; by eexists | done ] ]).

Lemma LRN_run_in_step (s : state MIOPEN_LRNOP.t) (hist : list event) :
  in_step (op_LRN (this s)) hist →
  let s' := (MIOPEN_LRNOP.RunOnDevice s).2 in
  MIOPEN_LRNOP.data_desc_ (this s') = MIOPEN_LRNOP.data_desc_ (this s)
  ∧ in_step (op_LRN (this s')) (hist ++ new_calls s s').
Proof.
  destruct s as [[d norm cached mode size alpha beta bias] ws].
  unfold MIOPEN_LRNOP.RunOnDevice, MIOPEN_LRNOP.DoRunWithType.
  intros Hinv. stepped Hinv.
Qed.

Lemma LRNGradient_run_in_step (s : state MIOPENLRNGradientOp.t)
    (hist : list event) :
  in_step (op_LRNGradient (this s)) hist →
  let s' := (MIOPENLRNGradientOp.RunOnDevice s).2 in
  MIOPENLRNGradientOp.data_desc_ (this s')
  = MIOPENLRNGradientOp.data_desc_ (this s)
  ∧ in_step (op_LRNGradient (this s')) (hist ++ new_calls s s').
Proof.
  destruct s as [[d norm cached mode size alpha beta bias db ws scratch] wd].
  unfold MIOPENLRNGradientOp.RunOnDevice, MIOPENLRNGradientOp.DoRunWithType.
  intros Hinv. stepped Hinv.
Qed.

Lemma run_in_step (o : operator) (w : World) (hist : list event) :
  in_step o hist →
  data_desc (run o w).2.1 = data_desc o
  ∧ in_step (run o w).2.1 (hist ++ new_calls w (run o w).2.2).
Proof.
  intros Hinv. destruct o as [o|o]; unfold run, on_instance.
  - pose proof (LRN_run_in_step (Build_state o w) hist Hinv) as Hs.
    by destruct (MIOPEN_LRNOP.RunOnDevice _).
  - pose proof (LRNGradient_run_in_step (Build_state o w) hist Hinv) as Hs.
    by destruct (MIOPENLRNGradientOp.RunOnDevice _).
Qed.

Lemma life_in_step (worlds : list World) :
  ∀ o hist, in_step o hist →
    data_desc (after_life o worlds) = data_desc o
    ∧ in_step (after_life o worlds) (hist ++ life_calls o worlds).
Proof.
  induction worlds as [|w worlds IH]; intros o hist Hinv; simpl.
  { split; [done|]. unfold life_calls. simpl. by rewrite app_nil_r. }
  destruct (run_in_step o w hist Hinv) as [Hd Hstep].
  destruct (IH _ _ Hstep) as [Hd' Hstep'].
  split; [congruence|].
  unfold life_calls. simpl. fold (life_calls (run o w).2.1 worlds).
  unfold calls_of. simpl. by rewrite (assoc_L (++)).
Qed.

Lemma create_in_step c def w o w' :
  create c def w = (Ok o, w') → in_step o (new_calls w w').
Proof.
  destruct c; unfold create, MIOPEN_LRNOP.new, MIOPENLRNGradientOp.new.
  all: intros E; revert E; exec; intros E; simplify_eq.
  all: by intros ? ? ? ? Hc.
Qed.

Lemma class_of_run (o : operator) (w : World) :
  class_of (run o w).2.1 = class_of o.
Proof.
  destruct o as [o|o]; unfold run, on_instance; by case_match.
Qed.

Lemma marshals_in_run (o : operator) (w : World) (T : Tensor) n c h w' :
  Inputs w !! dispatch_tensor o = Some T →
  ((arity (class_of o)).1 ≤ length (Inputs w))%nat →
  (1 ≤ length (Outputs w))%nat →
  meta T = meta_float → dims T = [n; c; h; w'] →
  n < INT_MAX → c < INT_MAX → h < INT_MAX → w' < INT_MAX →
  let evs := new_calls w (run o w).2.2 in
  evs ≠ []
  ∧ (∀ e d', e ∈ evs → d' ∈ descriptors_of e → d' = data_desc o)
  ∧ ([n; c; h; w'] ≠ cached_dims o →
     ∃ st rest,
       evs = call_Set4dTensorDescriptor (data_desc o) miopenFloat n c h w' st
             :: rest
       ∧ set_calls rest = []
       ∧ (st ≠ miopenStatusSuccess →
          rest = [] ∧ (run o w).1 = Throw (MIOpenError st)))
  ∧ ([n; c; h; w'] = cached_dims o → set_calls evs = []).
Proof.
  intros HT Hin Hout Hfloat Hdims Hn Hc Hh Hw.
  destruct (lookup_lt_is_Some_2 (Outputs w) 0) as [Y HY]; [lia|].
  destruct o as [o|o]; simpl in *.
  - pose proof (LRN_marshals_in_run (Build_state o w) T Y n c h w' HT HY
                  Hfloat Hdims Hn Hc Hh Hw) as Hm.
    unfold run, on_instance. by destruct (MIOPEN_LRNOP.RunOnDevice _).
  - destruct (lookup_lt_is_Some_2 (Inputs w) 0) as [X HX]; [lia|].
    destruct (lookup_lt_is_Some_2 (Inputs w) 1) as [Y' HY']; [lia|].
    pose proof (LRNGradient_marshals_in_run (Build_state o w) X Y' T Y
                  n c h w' HX HY' HT HY Hfloat Hdims Hn Hc Hh Hw) as Hm.
    unfold run, on_instance.
    by destruct (MIOPENLRNGradientOp.RunOnDevice _).
Qed.
End Shape.

(** C3, as amended.  Let an operator of either class be constructed and run
    any number of times, and then run on a dispatch tensor (X for the
    forward operator, dY for the gradient operator) that holds floats and
    is 4-dimensional, of a shape (N, C, H, W) that fits the library's
    [int]s.  The run calls the library.  When the shape is not the cached
    one, the first call of the run sets the operator's descriptor to
    (N, C, H, W) with element type float, taken from the dims 0 to 3; no
    other call of the run sets a descriptor, and the run goes on to the
    compute calls only when that call has returned success.  When the shape
    is the cached one the run sets no descriptor.  Either way every tensor
    descriptor handed to the forward and backward entry points (for X, Y,
    dY and dX) is that one descriptor, and the last call that set a
    descriptor, in this run or in the earlier run that cached the shape,
    has handed (N, C, H, W) to it. *)
Theorem shape_is_marshaled `{platform : Platform} (c : operator_class)
    (def : OperatorDef) (w0 w1 : World) (o0 : operator)
    (worlds : list World) (w : World) (T : Tensor) (N C H W : Z) :
  create c def w0 = (Ok o0, w1) →
  let o := after_life o0 worlds in
  Inputs w !! dispatch_tensor o = Some T →
  ((arity (class_of o)).1 ≤ length (Inputs w))%nat →
  (1 ≤ length (Outputs w))%nat →
  meta T = meta_float →
  dims T = [N; C; H; W] →
  N < INT_MAX → C < INT_MAX → H < INT_MAX → W < INT_MAX →
  marshals_shape (data_desc o0) (cached_dims o) N C H W (run o w).1
    (new_calls w0 w1 ++ life_calls o0 worlds) (new_calls w (run o w).2.2).
Proof.
  intros Hnew o HT Hin Hout Hfloat Hdims HN HC HH HW.
  destruct (life_in_step worlds o0 _ (create_in_step _ _ _ _ _ Hnew))
    as [Hd Hstep].
  fold o in Hd, Hstep.
  destruct (marshals_in_run o w T N C H W HT Hin Hout Hfloat Hdims HN HC HH HW)
    as (Hsome & Hdesc & Hmiss & Hhit).
  unfold in_step in Hstep. rewrite Hd in Hdesc, Hmiss, Hstep.
  split; [done|]. split; [done|]. split; [done|]. split; [done|].
  unfold last_set_to, set_calls in *. rewrite List.filter_app.
  destruct (decide ([N; C; H; W] = cached_dims o)) as [Heq|Hne].
  - rewrite (Hhit Heq), app_nil_r. by apply Hstep.
  - destruct (Hmiss Hne) as (st & rest & -> & Hrest & _).
    simpl. rewrite Hrest. rewrite last_snoc. by eexists.
Qed.

Lemma shape_is_marshaled_witness :
  let w0 := Scripted.a_world [] [] [] in
  let first := Scripted.gradient_world [] in
  let w := Scripted.gradient_world [] in
  let forward := op_LRN Scripted.LRN_op in
  let gradient := op_LRNGradient Scripted.gradient_op in
  let after := after_life gradient [first] in
  let wf := Scripted.a_world [Scripted.image] [Scripted.empty_out] [] in
  (create class_MIOPEN_LRNOP Scripted.no_args w0
   = (Ok forward, (create class_MIOPEN_LRNOP Scripted.no_args w0).2)
   ∧ create class_MIOPENLRNGradientOp Scripted.no_args w0
     = (Ok gradient,
        (create class_MIOPENLRNGradientOp Scripted.no_args w0).2)
   ∧ Inputs wf !! dispatch_tensor forward = Some Scripted.image
   ∧ Inputs w !! dispatch_tensor after = Some Scripted.image
   ∧ meta Scripted.image = meta_float
   ∧ dims Scripted.image = [2; 3; 4; 4])
  ∧ marshals_shape 16 [] 2 3 4 4 (run forward wf).1
      (new_calls w0 (create class_MIOPEN_LRNOP Scripted.no_args w0).2
       ++ life_calls forward [])
      (new_calls wf (run forward wf).2.2)
  ∧ marshals_shape 16 (cached_dims after) 2 3 4 4 (run after w).1
      (new_calls w0
         (create class_MIOPENLRNGradientOp Scripted.no_args w0).2
       ++ life_calls gradient [first])
      (new_calls w (run after w).2.2).
Proof.
  intros w0 first w forward gradient after wf.
  assert (create class_MIOPEN_LRNOP Scripted.no_args w0
          = (Ok forward, (create class_MIOPEN_LRNOP Scripted.no_args w0).2))
    as Ef by (vm_compute; reflexivity).
  assert (create class_MIOPENLRNGradientOp Scripted.no_args w0
          = (Ok gradient,
             (create class_MIOPENLRNGradientOp Scripted.no_args w0).2))
    as Eg by (vm_compute; reflexivity).
  assert (Inputs w !! dispatch_tensor after = Some Scripted.image) as HT
    by (vm_compute; reflexivity).
  assert ((arity (class_of after)).1 ≤ length (Inputs w))%nat as Hin
    by (vm_compute; lia).
  assert ((arity (class_of forward)).1 ≤ length (Inputs wf))%nat as Hinf
    by (simpl; lia).
  assert (1 ≤ length (Outputs w))%nat as Hout by (simpl; lia).
  assert (1 ≤ length (Outputs wf))%nat as Houtf by (simpl; lia).
  assert (2 < INT_MAX ∧ 3 < INT_MAX ∧ 4 < INT_MAX) as (H2 & H3 & H4)
    by (unfold INT_MAX; lia).
  split; [repeat split; first [exact Ef | exact Eg | exact HT]|].
  split.
  - exact (shape_is_marshaled class_MIOPEN_LRNOP Scripted.no_args w0 _
             forward [] wf Scripted.image 2 3 4 4 Ef eq_refl Hinf Houtf
             eq_refl eq_refl H2 H3 H4 H4).
  - exact (shape_is_marshaled class_MIOPENLRNGradientOp Scripted.no_args w0
             _ gradient [first] w Scripted.image 2 3 4 4 Eg HT Hin Hout
             eq_refl eq_refl H2 H3 H4 H4).
Defined.

(** C3, as it was stated, fails.  A forward operator is constructed and run
    twice on the same float image of shape (2, 3, 4, 4).  In the first run
    the call that sets the descriptor returns status 7 and the run ends in
    that failure.  The second run finds the dims cached, sets nothing and
    calls the forward entry point with the descriptor, which has not been
    set for the shape: the only call to set it has failed. *)
Lemma descriptor_used_after_a_failed_set :
  let w0 := Scripted.a_world [] [] [] in
  let o0 := op_LRN Scripted.LRN_op in
  let failing := Scripted.a_world [Scripted.image] [Scripted.empty_out] [7] in
  let w := Scripted.a_world [Scripted.image] [Scripted.empty_out] [] in
  let o := after_life o0 [failing] in
  let hist := new_calls w0 (create class_MIOPEN_LRNOP Scripted.no_args w0).2
              ++ life_calls o0 [failing] in
  (create class_MIOPEN_LRNOP Scripted.no_args w0).1 = Ok o0
  ∧ (run o0 failing).1 = Throw (MIOpenError 7)
  ∧ (run o w).1 = Ok true
  ∧ new_calls w (run o w).2.2
    = [ call_LRNForward 7 32 0 16 (data_of (InputBlob 0)) 0 16
                        (data_of (OutputBlob 0)) false nullptr 0 ]
  ∧ last (set_calls (hist ++ new_calls w (run o w).2.2))
    = Some (call_Set4dTensorDescriptor 16 miopenFloat 2 3 4 4 7)
  ∧ ¬ descriptor_is_set 16 2 3 4 4 (hist ++ new_calls w (run o w).2.2).
Proof.
  intros w0 o0 failing w o hist.
  assert (last (set_calls (hist ++ new_calls w (run o w).2.2))
          = Some (call_Set4dTensorDescriptor 16 miopenFloat 2 3 4 4 7))
    as Hlast by (vm_compute; reflexivity).
  split; [vm_compute; reflexivity|]. split; [vm_compute; reflexivity|].
  split; [vm_compute; reflexivity|]. split; [vm_compute; reflexivity|].
  split; [exact Hlast|].
  unfold descriptor_is_set. rewrite Hlast. intros E. discriminate E.
Qed.

(** ** The hyperparameters *)

Section Hyperparameters.
Context `{Platform}.

Lemma to_int_fits (v : Z) : fits_int (to_int v).
Proof.
  unfold fits_int, to_int, INT_MIN, INT_MAX.
  pose proof (Z.mod_pos_bound (v + 2 ^ 31) (2 ^ 32)). lia.
Qed.

Lemma int_argument_fits def name default v :
  fits_int default → int_argument def name default v → fits_int v.
Proof.
  unfold int_argument. intros Hd Hv.
  destruct (arg def !! name) as [a|]; [|by subst].
  destruct Hv as (i & _ & [[? ->]|(_ & _ & ->)]); [done|apply to_int_fits].
Qed.

Lemma to_unsigned_int_nonneg (v : Z) :
  fits_int v → 0 ≤ v → to_unsigned_int v = v.
Proof.
  unfold fits_int, to_unsigned_int, INT_MIN, INT_MAX. intros.
  apply Z.mod_small. lia.
Qed.

(** At the end of a path of a constructor. *)
Ltac built :=
  count_calls; unfold construction_ends, constructed; simpl;
  first
    [ congruence
    | by eexists _, _
    | assert (fits_int 0) by (unfold fits_int, INT_MIN, INT_MAX; lia);
      (split; [done|]);
      (split; [by eapply int_argument_fits|]);
      (split; [done|]); (split; [done|]); (split; [done|]);
      (split; [done|]);
      eexists; (split; [reflexivity|]); (split; [done|]);
      intros; apply to_unsigned_int_nonneg;
      [by eapply int_argument_fits|done] ].

Lemma create_ends c def w :
  well_typed c def = true →
  construction_ends def (create c def w).1
                    (new_calls w (create c def w).2).
Proof.
  unfold well_typed. intros Hty.
  repeat match goal with
    | H : _ && _ = true |- _ => apply andb_true_iff in H as [H ?]
    end.
  destruct c; unfold create, MIOPEN_LRNOP.new, MIOPENLRNGradientOp.new.
  all: exec. all: built.
Qed.

Ltac kept :=
  exec; count_calls; (split; [done|]);
  (let Hin := fresh "Hin" in intros ? Hin; by each_call Hin).

Lemma LRN_run_keeps_hyperparameters (s : state MIOPEN_LRNOP.t) :
  let s' := (MIOPEN_LRNOP.RunOnDevice s).2 in
  keeps_hyperparameters (op_LRN (this s)) (op_LRN (this s'))
                        (new_calls s s').
Proof.
  unfold MIOPEN_LRNOP.RunOnDevice, MIOPEN_LRNOP.DoRunWithType,
    keeps_hyperparameters.
  kept.
Qed.

Lemma LRNGradient_run_keeps_hyperparameters
    (s : state MIOPENLRNGradientOp.t) :
  let s' := (MIOPENLRNGradientOp.RunOnDevice s).2 in
  keeps_hyperparameters (op_LRNGradient (this s)) (op_LRNGradient (this s'))
                        (new_calls s s').
Proof.
  unfold MIOPENLRNGradientOp.RunOnDevice, MIOPENLRNGradientOp.DoRunWithType,
    keeps_hyperparameters.
  kept.
Qed.

Lemma run_keeps_hyperparameters (o : operator) (w : World) :
  keeps_hyperparameters o (run o w).2.1 (new_calls w (run o w).2.2).
Proof.
  destruct o as [o|o]; unfold run, on_instance.
  - pose proof (LRN_run_keeps_hyperparameters (Build_state o w)) as Hk.
    by destruct (MIOPEN_LRNOP.RunOnDevice _).
  - pose proof (LRNGradient_run_keeps_hyperparameters (Build_state o w))
      as Hk.
    by destruct (MIOPENLRNGradientOp.RunOnDevice _).
Qed.

Lemma life_keeps_hyperparameters (worlds : list World) :
  ∀ o r, r ∈ life o worlds →
    hyperparameters (before r).1 = hyperparameters o
    ∧ keeps_hyperparameters o (after r).1 (calls_of r).
Proof.
  induction worlds as [|w worlds IH]; intros o r Hr; simpl in Hr.
  { by apply elem_of_nil in Hr. }
  destruct (run_keeps_hyperparameters o w) as [Hsame Hcalls].
  apply elem_of_cons in Hr as [->|Hr]; [done|].
  destruct (IH _ _ Hr) as (Hb & Ha & Hc).
  split; [congruence|]. split; [congruence|done].
Qed.
End Hyperparameters.

(** C4, as amended.  Construction of an operator of either class from a
    definition whose arguments have the right types ends with the operator
    constructed or in the fatal failure of the last library call made.  The
    operator holds the cross-channel mode, the [int] read from the argument
    "size" and the values of the arguments "alpha", "beta" and "bias"
    (defaults 0, 0, 0 and 1); construction has handed the mode and these
    values to the LRN descriptor, alpha, beta and bias as they are and the
    size converted to the library's [unsigned int], which is the size
    itself unless it is negative.  In every run of the operator's life the
    hyperparameters are the same and no call sets the LRN descriptor. *)
Theorem hyperparameters_fixed_at_construction `{Platform}
    (c : operator_class) (def : OperatorDef) (w : World) :
  well_typed c def = true →
  let r := create c def w in
  construction_ends def r.1 (new_calls w r.2)
  ∧ ∀ o, r.1 = Ok o →
      ∀ worlds run, run ∈ life o worlds →
        hyperparameters (before run).1 = hyperparameters o
        ∧ hyperparameters (after run).1 = hyperparameters o
        ∧ ∀ e, e ∈ calls_of run → is_SetLRNDescriptor e = false.
Proof.
  intros Hty r. split.
  - by apply create_ends.
  - intros o _ worlds run Hrun.
    by destruct (life_keeps_hyperparameters worlds o run Hrun) as (? & ? & ?).
Qed.

Lemma hyperparameters_fixed_at_construction_witness :
  let w := Scripted.a_world [] [] [] in
  (well_typed class_MIOPEN_LRNOP Scripted.some_args = true
   ∧ well_typed class_MIOPENLRNGradientOp Scripted.no_args = true)
  ∧ (create class_MIOPEN_LRNOP Scripted.some_args w).1
    = Ok (op_LRN Scripted.LRN_op_5)
  ∧ construction_ends Scripted.some_args
      (Ok (op_LRN Scripted.LRN_op_5))
      (new_calls w (create class_MIOPEN_LRNOP Scripted.some_args w).2)
  ∧ (create class_MIOPENLRNGradientOp Scripted.no_args w).1
    = Ok (op_LRNGradient Scripted.gradient_op)
  ∧ construction_ends Scripted.no_args
      (Ok (op_LRNGradient Scripted.gradient_op))
      (new_calls w (create class_MIOPENLRNGradientOp Scripted.no_args w).2).
Proof.
  intros w.
  assert (well_typed class_MIOPEN_LRNOP Scripted.some_args = true) as Hf
    by (vm_compute; reflexivity).
  assert (well_typed class_MIOPENLRNGradientOp Scripted.no_args = true) as Hg
    by (vm_compute; reflexivity).
  assert ((create class_MIOPEN_LRNOP Scripted.some_args w).1
          = Ok (op_LRN Scripted.LRN_op_5)) as Ef
    by (vm_compute; reflexivity).
  assert ((create class_MIOPENLRNGradientOp Scripted.no_args w).1
          = Ok (op_LRNGradient Scripted.gradient_op)) as Eg
    by (vm_compute; reflexivity).
  split; [split; [exact Hf | exact Hg]|].
  split; [exact Ef|]. split.
  { rewrite <- Ef.
    exact (proj1 (hyperparameters_fixed_at_construction
                    class_MIOPEN_LRNOP Scripted.some_args w Hf)). }
  split; [exact Eg|].
  rewrite <- Eg.
  exact (proj1 (hyperparameters_fixed_at_construction
                  class_MIOPENLRNGradientOp Scripted.no_args w Hg)).
Defined.

(** C4, as it was stated, fails.  A forward operator is constructed from a
    definition whose argument "size" is -1: the constructor reads the [int]
    -1, and the LRN descriptor is handed the [unsigned int] 4294967295.
    From a definition whose "size" is 4294967296, which no [int] holds, the
    descriptor is not handed that number either: here the argument is
    rejected and construction ends before any call. *)
Lemma size_is_not_passed_unchanged :
  let w := Scripted.a_world [] [] [] in
  let a := create class_MIOPEN_LRNOP Scripted.negative_size w in
  let b := create class_MIOPEN_LRNOP Scripted.wide_size w in
  (arg Scripted.negative_size !! "size" = Some (arg_i (-1))
   ∧ (hyperparameters
        <$> match a.1 with Ok o => Some o | Throw _ => None end)
     = Some (32, miopenLRNCrossChannel, -1, 0, 0, 1)
   ∧ new_calls w a.2
     = [ call_CreateTensorDescriptor 16 0; call_CreateLRNDescriptor 32 0;
         call_SetLRNDescriptor 32 miopenLRNCrossChannel 4294967295 0 0 1 0 ]
   ∧ ¬ size_passed_unchanged Scripted.negative_size (new_calls w a.2))
  ∧ (arg Scripted.wide_size !! "size" = Some (arg_i 4294967296)
     ∧ new_calls w b.2 = []
     ∧ ¬ size_passed_unchanged Scripted.wide_size (new_calls w b.2)).
Proof.
  intros w a b.
  assert (new_calls w a.2
          = [ call_CreateTensorDescriptor 16 0; call_CreateLRNDescriptor 32 0;
              call_SetLRNDescriptor 32 miopenLRNCrossChannel 4294967295
                                    0 0 1 0 ]) as Ha
    by (vm_compute; reflexivity).
  assert (new_calls w b.2 = []) as Hb by (vm_compute; reflexivity).
  split; [split; [vm_compute; reflexivity|]|split; [vm_compute; reflexivity|]].
  - split; [vm_compute; reflexivity|]. split; [exact Ha|].
    intros Hsame.
    destruct (Hsame (-1)) as (d & mode & alpha & beta & k & st & Hin);
      [vm_compute; reflexivity|].
    rewrite Ha in Hin.
    repeat (apply elem_of_cons in Hin as [Hin|Hin]);
      try discriminate Hin.
    by apply elem_of_nil in Hin.
  - split; [exact Hb|].
    intros Hsame.
    destruct (Hsame 4294967296) as (d & mode & alpha & beta & k & st & Hin);
      [vm_compute; reflexivity|].
    rewrite Hb in Hin. by apply elem_of_nil in Hin.
Qed.

(** ** What a run writes *)

Section Frame.
Context `{Platform}.

Lemma written_nullptr (b : option buffer) (m : gmap ptr buffer) :
  written nullptr b m = m.
Proof. unfold written. destruct b; [|done]. by case_decide. Qed.

Lemma lookup_written_ne (p q : ptr) (b : option buffer)
    (m : gmap ptr buffer) :
  p ≠ q → written q b m !! p = m !! p.
Proof.
  intros Hne. unfold written. destruct b; [|done].
  case_decide; [done|]. by rewrite lookup_insert_ne.
Qed.

Ltac untouched :=
  rewrite ?written_nullptr; rewrite ?lookup_written_ne by done; done.

Ltac frame :=
  exec; unfold writes_only; simpl_run;
  (split; [done|]); (split; [intros ?; untouched|]);
  (split; [intros ? ?; by rewrite ?list_lookup_alter_ne|]);
  (let Hp := fresh "Hp" in
   intros ? Hp; repeat (apply not_elem_of_cons in Hp as [? Hp]);
   untouched).

Lemma LRN_run_writes_only (s : state MIOPEN_LRNOP.t) :
  let s' := (MIOPEN_LRNOP.RunOnDevice s).2 in
  writes_only [data_of (OutputBlob 0)] (world s) (world s').
Proof.
  unfold MIOPEN_LRNOP.RunOnDevice, MIOPEN_LRNOP.DoRunWithType. frame.
Qed.

Lemma LRNGradient_run_writes_only (s : state MIOPENLRNGradientOp.t) :
  let s' := (MIOPENLRNGradientOp.RunOnDevice s).2 in
  writes_only (data_of (OutputBlob 0)
               :: private_buffers (op_LRNGradient (this s')))
              (world s) (world s').
Proof.
  unfold MIOPENLRNGradientOp.RunOnDevice, MIOPENLRNGradientOp.DoRunWithType.
  frame.
Qed.
End Frame.

(** C5.  A run of either operator, successful or not, writes no tensor but
    its declared output (Y for the forward operator, dX for the gradient
    operator): the input tensors and their storage are as they were, and so
    is every other output; besides the output's storage the only device
    memory written is in the buffers the gradient operator keeps for
    itself. *)
Theorem writes_only_the_output `{Platform} (o : operator) (w : World) :
  let o' := (run o w).2.1 in
  let w' := (run o w).2.2 in
  writes_only (data_of (OutputBlob 0) :: private_buffers o') w w'.
Proof.
  destruct o as [o|o]; unfold run, on_instance.
  - pose proof (LRN_run_writes_only (Build_state o w)) as Hw.
    by destruct (MIOPEN_LRNOP.RunOnDevice _).
  - pose proof (LRNGradient_run_writes_only (Build_state o w)) as Hw.
    by destruct (MIOPENLRNGradientOp.RunOnDevice _).
Qed.

(** ** Registration and the blobs used *)

Section Registration.
Context `{Platform}.

Lemma registry_two_operators : two_operators registry.
Proof.
  unfold two_operators, registry, REGISTER_MIOPEN_OPERATOR.
  split; [|split; [done|split; [done|]]].
  - rewrite !dom_insert_L, dom_empty_L. set_solver.
  - intros [] def w o w' Hnew; unfold create in Hnew; unfold_monad;
      repeat case_match; by simplify_eq.
Qed.

Ltac bounds :=
  repeat match goal with
    | H : _ !! _ = None |- _ => apply lookup_ge_None in H
    | H : _ !! _ = Some _ |- _ => apply lookup_lt_Some in H
    end;
  rewrite ?length_alter in *.

Ltac blobs :=
  exec; unfold uses_blobs; simpl_run; bounds;
  (split; [intros [?|?]; first [lia | by eauto] | intros; first [done | lia]]).

Lemma LRN_uses_blobs (s : state MIOPEN_LRNOP.t) :
  uses_blobs (1, 1)%nat (world s) (MIOPEN_LRNOP.RunOnDevice s).1.
Proof.
  unfold MIOPEN_LRNOP.RunOnDevice, MIOPEN_LRNOP.DoRunWithType. blobs.
Qed.

Lemma LRNGradient_uses_blobs (s : state MIOPENLRNGradientOp.t) :
  uses_blobs (3, 1)%nat (world s) (MIOPENLRNGradientOp.RunOnDevice s).1.
Proof.
  unfold MIOPENLRNGradientOp.RunOnDevice, MIOPENLRNGradientOp.DoRunWithType.
  blobs.
Qed.
End Registration.

(** C6.  The file registers exactly two operators: the name "LRN" bound to
    [MIOPEN_LRNOP] and the name "LRNGradient" bound to
    [MIOPENLRNGradientOp].  The forward operator runs on one input (X) and
    one output (Y), the gradient operator on three inputs (X, Y, dY) and one
    output (dX): with fewer blobs a run fails for want of one, with that
    many it does not. *)
Theorem exactly_two_operators `{Platform} (o : operator) (w : World) :
  two_operators registry
  ∧ uses_blobs (arity (class_of o)) w (run o w).1.
Proof.
  split; [apply registry_two_operators|].
  destruct o as [o|o]; unfold run, on_instance; simpl.
  - pose proof (LRN_uses_blobs (Build_state o w)) as Hb.
    by destruct (MIOPEN_LRNOP.RunOnDevice _).
  - pose proof (LRNGradient_uses_blobs (Build_state o w)) as Hb.
    by destruct (MIOPENLRNGradientOp.RunOnDevice _).
Qed.

(** ** Delegation *)

Section Delegated.
Context `{Platform}.

Lemma marshal_shape_lookup (shape : list Z) (n c h w : Z) :
  shape !! 0%nat = Some n → shape !! 1%nat = Some c →
  shape !! 2%nat = Some h → shape !! 3%nat = Some w →
  marshal_shape shape = Some (n, c, h, w).
Proof.
  destruct shape as [|? [|? [|? [|? ?]]]]; simpl; intros; by simplify_eq.
Qed.

Ltac recall :=
  repeat (match goal with
          | H : ?x = _ |- context [?x] => rewrite H
          end; simpl_goal).

Lemma written_at_null (b : option buffer) (m : gmap ptr buffer) :
  written (device 0) b m = m.
Proof. apply written_nullptr. Qed.

(** At the end of a path of the method: the delegation takes the same
    path. *)
Ltac same_path :=
  repeat first
    [ progress unfold nullptr in *
    | progress recall
    | match goal with
      | H : ¬ (?a ≠ ?b) |- _ => apply dec_stable in H
      | H : bool_decide _ = true |- _ => apply bool_decide_eq_true in H
      | H : bool_decide _ = false |- _ => apply bool_decide_eq_false in H
      | |- context [decide (?a = ?b)] =>
          destruct (decide (a = b)); simplify_eq; try done; simpl_goal
      | |- context [decide (?a < ?b)] =>
          destruct (decide (a < b)); try done; simpl_goal
      | |- context [(?x !! ?i) ≫= _] => destruct (x !! i); simpl_goal
      end ];
  simplify_eq; rewrite ?written_at_null; try done.

Ltac delegated :=
  let E := fresh "E" in
  intros E; revert E; exec; intros E; simplify_eq;
  repeat match goal with H : decide _ = _ |- _ => clear H end;
  unfold nullptr in *; simplify_eq;
  unfold by_delegation, marshal, marshal_dims, as_int;
  simpl_goal; same_path.

Local Arguments by_delegation : simpl never.

Lemma LRN_delegates (s s' : state MIOPEN_LRNOP.t) r :
  MIOPEN_LRNOP.RunOnDevice s = (r, s') →
  by_delegation (op_LRN (this s)) (world s)
  = (verdict_of r, (mem (world s'), lib (world s'))).
Proof.
  destruct s as [[d norm cached mode size alpha beta bias] w].
  unfold MIOPEN_LRNOP.RunOnDevice, MIOPEN_LRNOP.DoRunWithType.
  delegated.
Qed.

Lemma LRNGradient_delegates (s s' : state MIOPENLRNGradientOp.t) r :
  MIOPENLRNGradientOp.RunOnDevice s = (r, s') →
  by_delegation (op_LRNGradient (this s)) (world s)
  = (verdict_of r, (mem (world s'), lib (world s'))).
Proof.
  destruct s as [[d norm cached mode size alpha beta bias db ws scratch] w].
  unfold MIOPENLRNGradientOp.RunOnDevice, MIOPENLRNGradientOp.DoRunWithType.
  delegated.
Qed.
End Delegated.

(** C7.  The adapters compute nothing themselves.  Every run of either
    operator, whatever its outcome, ends as the delegation does and leaves
    the device memory, the storage of the output tensor included, and the
    library as the delegation does: the operator is the composition of
    marshaling (the blobs checked, the shape and the scalars turned into
    requests) with the library's answers to the requests, the first error
    code ending both. *)
Theorem run_is_delegation `{Platform} (o : operator) (w : World) :
  by_delegation o w
  = (verdict_of (run o w).1, (mem (run o w).2.2, lib (run o w).2.2)).
Proof.
  destruct o as [o|o]; unfold run, on_instance.
  - pose proof (LRN_delegates (Build_state o w)) as Hd.
    destruct (MIOPEN_LRNOP.RunOnDevice _) as [r s'].
    exact (Hd s' r eq_refl).
  - pose proof (LRNGradient_delegates (Build_state o w)) as Hd.
    destruct (MIOPENLRNGradientOp.RunOnDevice _) as [r s'].
    exact (Hd s' r eq_refl).
Qed.

Lemma run_is_delegation_witness :
  let forward := op_LRN Scripted.LRN_op in
  let wf := Scripted.a_world [Scripted.image] [Scripted.empty_out] [] in
  let failing := Scripted.a_world [Scripted.image] [Scripted.empty_out] [7] in
  let gradient := op_LRNGradient Scripted.gradient_op in
  let wg := Scripted.gradient_world [] in
  by_delegation forward wf
  = (completed, (mem (run forward wf).2.2, lib (run forward wf).2.2))
  ∧ mem (run forward wf).2.2 !! data_of (OutputBlob 0) = Some [1; 10]
  ∧ by_delegation forward failing
    = (vendor_failure 7, (mem failing, lib (run forward failing).2.2))
  ∧ by_delegation gradient wg
    = (completed, (mem (run gradient wg).2.2, lib (run gradient wg).2.2))
  ∧ mem (run gradient wg).2.2 !! data_of (OutputBlob 0) = Some [3; 12].
Proof.
  intros forward wf failing gradient wg.
  pose proof (run_is_delegation forward wf) as Hf.
  pose proof (run_is_delegation forward failing) as Hfail.
  pose proof (run_is_delegation gradient wg) as Hg.
  assert (verdict_of (run forward wf).1 = completed) as Ef
    by (vm_compute; reflexivity).
  assert (verdict_of (run forward failing).1 = vendor_failure 7) as Efail
    by (vm_compute; reflexivity).
  assert (mem (run forward failing).2.2 = mem failing) as Em
    by (vm_compute; reflexivity).
  assert (verdict_of (run gradient wg).1 = completed) as Eg
    by (vm_compute; reflexivity).
  rewrite Ef in Hf. rewrite Efail, Em in Hfail. rewrite Eg in Hg.
  split; [exact Hf|]. split; [vm_compute; reflexivity|].
  split; [exact Hfail|]. split; [exact Hg|].
  vm_compute; reflexivity.
Defined.

(** ** Dispatch on the element type *)

Section Dispatch.
Context `{Platform}.

Local Arguments MIOPEN_LRNOP.DoRunWithType : simpl never.
Local Arguments MIOPENLRNGradientOp.DoRunWithType : simpl never.

Lemma LRN_dispatch (s : state MIOPEN_LRNOP.t) X Y :
  Inputs (world s) !! 0%nat = Some X →
  Outputs (world s) !! 0%nat = Some Y →
  MIOPEN_LRNOP.RunOnDevice s =
  if bool_decide (meta X = meta_float)
  then MIOPEN_LRNOP.DoRunWithType (resize X s)
  else (Throw (EnforceNotMet "Unsupported input type"), resize X s).
Proof.
  intros HX HY. unfold MIOPEN_LRNOP.RunOnDevice.
  unfold_framework; unfold_monad; simpl_goal.
  rewrite HX, HY; simpl_goal. rewrite HX; simpl_goal. rewrite HX; simpl_goal.
  by case_bool_decide.
Qed.

Lemma LRNGradient_dispatch (s : state MIOPENLRNGradientOp.t) X Y dY dX :
  Inputs (world s) !! 0%nat = Some X →
  Inputs (world s) !! 1%nat = Some Y →
  Inputs (world s) !! 2%nat = Some dY →
  Outputs (world s) !! 0%nat = Some dX →
  MIOPENLRNGradientOp.RunOnDevice s =
  if bool_decide (meta dY = meta_float)
  then MIOPENLRNGradientOp.DoRunWithType (resize dY s)
  else (Throw (EnforceNotMet "Unsupported input type"), resize dY s).
Proof.
  intros HX HY HdY HdX. unfold MIOPENLRNGradientOp.RunOnDevice.
  unfold_framework; unfold_monad; simpl_goal.
  rewrite HX, HY, HdY, HdX; simpl_goal. rewrite HdY; simpl_goal.
  rewrite HdY; simpl_goal. by case_bool_decide.
Qed.

Lemma marshal_shape_Some (shape : list Z) (n c h w : Z) :
  marshal_shape shape = Some (n, c, h, w) →
  shape !! 0%nat = Some n ∧ shape !! 1%nat = Some c
  ∧ shape !! 2%nat = Some h ∧ shape !! 3%nat = Some w.
Proof.
  destruct shape as [|? [|? [|? [|? ?]]]]; simpl; intros; by simplify_eq.
Qed.

(** A run on a float tensor of marshalable shape reaches the library. *)
Ltac reaches Hm :=
  exec; count_calls; try done;
  repeat match goal with
    | H : bool_decide _ = false |- _ => apply bool_decide_eq_false in H
    end;
  destruct Hm as [?|(? & ? & ? & ? & (? & ? & ? & ?)%marshal_shape_Some
                     & ? & ? & ? & ?)];
  simplify_eq; done.

Lemma LRN_reaches_library (s : state MIOPEN_LRNOP.t) X Y :
  Inputs (world s) !! 0%nat = Some X →
  Outputs (world s) !! 0%nat = Some Y →
  meta X = meta_float →
  marshalable (MIOPEN_LRNOP.miopen_input_dims_ (this s)) (dims X) →
  new_calls s (MIOPEN_LRNOP.RunOnDevice s).2 ≠ [].
Proof.
  unfold MIOPEN_LRNOP.RunOnDevice, MIOPEN_LRNOP.DoRunWithType.
  intros HX HY Hfloat Hm. reaches Hm.
Qed.

Lemma LRNGradient_reaches_library (s : state MIOPENLRNGradientOp.t)
    X Y dY dX :
  Inputs (world s) !! 0%nat = Some X →
  Inputs (world s) !! 1%nat = Some Y →
  Inputs (world s) !! 2%nat = Some dY →
  Outputs (world s) !! 0%nat = Some dX →
  meta dY = meta_float →
  marshalable (MIOPENLRNGradientOp.miopen_input_dims_ (this s)) (dims dY) →
  new_calls s (MIOPENLRNGradientOp.RunOnDevice s).2 ≠ [].
Proof.
  unfold MIOPENLRNGradientOp.RunOnDevice, MIOPENLRNGradientOp.DoRunWithType.
  intros HX HY HdY HdX Hfloat Hm. reaches Hm.
Qed.
End Dispatch.

(** C8.  Let T be the dispatch tensor of a run (X for the forward operator,
    dY for the gradient operator), the operator's blobs being there.  When T
    does not hold floats, [RunOnDevice] ends in the fatal error "Unsupported
    input type" and has made no call into the library at all.  When T holds
    floats the run is the typed run, which calls the library for every
    shape it can marshal.  The test looks at T alone: for the gradient
    operator X and Y are any tensors. *)
Theorem dispatch_on_element_type `{Platform} (o : operator) (w : World)
    (T : Tensor) :
  Inputs w !! dispatch_tensor o = Some T →
  ((arity (class_of o)).1 ≤ length (Inputs w))%nat →
  (1 ≤ length (Outputs w))%nat →
  dispatches_on T o w.
Proof.
  intros HT Hin Hout.
  destruct (lookup_lt_is_Some_2 (Outputs w) 0) as [Y HY]; [lia|].
  destruct o as [o|o]; simpl in *.
  - pose proof (LRN_dispatch (Build_state o w) T Y HT HY) as Hd.
    pose proof (LRN_reaches_library (Build_state o w) T Y HT HY) as Hr.
    unfold dispatches_on, run, run_with_type, on_instance in *. simpl in *.
    rewrite Hd. split; intros Hty.
    + rewrite bool_decide_eq_false_2 by done. simpl.
      unfold new_calls. simpl. by rewrite drop_all.
    + rewrite bool_decide_eq_true_2 by done. split; [done|].
      intros Hm. specialize (Hr Hty Hm). rewrite Hd in Hr.
      rewrite bool_decide_eq_true_2 in Hr by done.
      by destruct (MIOPEN_LRNOP.DoRunWithType _).
  - destruct (lookup_lt_is_Some_2 (Inputs w) 0) as [X HX]; [lia|].
    destruct (lookup_lt_is_Some_2 (Inputs w) 1) as [Y' HY']; [lia|].
    pose proof (LRNGradient_dispatch (Build_state o w) X Y' T Y HX HY' HT HY)
      as Hd.
    pose proof (LRNGradient_reaches_library (Build_state o w) X Y' T Y HX HY'
                  HT HY) as Hr.
    unfold dispatches_on, run, run_with_type, on_instance in *. simpl in *.
    rewrite Hd. split; intros Hty.
    + rewrite bool_decide_eq_false_2 by done. simpl.
      unfold new_calls. simpl. by rewrite drop_all.
    + rewrite bool_decide_eq_true_2 by done. split; [done|].
      intros Hm. specialize (Hr Hty Hm). rewrite Hd in Hr.
      rewrite bool_decide_eq_true_2 in Hr by done.
      by destruct (MIOPENLRNGradientOp.DoRunWithType _).
Qed.

Lemma dispatch_on_element_type_witness :
  let o := op_LRNGradient Scripted.gradient_op in
  let w := Scripted.gradient_world [] in
  (Inputs w !! dispatch_tensor o = Some Scripted.image
   ∧ ((arity (class_of o)).1 ≤ length (Inputs w))%nat
   ∧ (1 ≤ length (Outputs w))%nat)
  ∧ dispatches_on Scripted.image o w.
Proof.
  intros o w.
  assert ((arity (class_of o)).1 ≤ length (Inputs w))%nat as Hin
    by (simpl; lia).
  assert (1 ≤ length (Outputs w))%nat as Hout by (simpl; lia).
  split; [split; [reflexivity | split; [exact Hin | exact Hout]]|].
  exact (dispatch_on_element_type o w Scripted.image eq_refl Hin Hout).
Defined.

(** ** The shape of the output *)

Section OutputShape.
Context `{Platform}.

Ltac reshaped HY :=
  exec; simpl_run; rewrite ?list_lookup_alter_eq, ?HY; done.

Lemma LRN_output_shape (s : state MIOPEN_LRNOP.t) X Y :
  Inputs (world s) !! 0%nat = Some X →
  Outputs (world s) !! 0%nat = Some Y →
  let w' := world (MIOPEN_LRNOP.RunOnDevice s).2 in
  dims <$> Outputs w' !! 0%nat = Some (dims X)
  ∧ Inputs w' = Inputs (world s).
Proof.
  unfold MIOPEN_LRNOP.RunOnDevice, MIOPEN_LRNOP.DoRunWithType.
  intros HX HY. reshaped HY.
Qed.

Lemma LRNGradient_output_shape (s : state MIOPENLRNGradientOp.t)
    X Y dY dX :
  Inputs (world s) !! 0%nat = Some X →
  Inputs (world s) !! 1%nat = Some Y →
  Inputs (world s) !! 2%nat = Some dY →
  Outputs (world s) !! 0%nat = Some dX →
  let w' := world (MIOPENLRNGradientOp.RunOnDevice s).2 in
  dims <$> Outputs w' !! 0%nat = Some (dims dY)
  ∧ Inputs w' = Inputs (world s).
Proof.
  unfold MIOPENLRNGradientOp.RunOnDevice, MIOPENLRNGradientOp.DoRunWithType.
  intros HX HY HdY HdX. reshaped HdX.
Qed.
End OutputShape.

(** C9.  After every invocation of [RunOnDevice] on an operator that has its
    blobs, whatever the outcome (success, the unsupported-type error or any
    other failure), the output tensor has the dims of the dispatch input
    (Y those of X for the forward operator, dX those of dY for the gradient
    operator), and the inputs are the ones the run was given: the resize
    comes before the test of the element type and is not undone. *)
Theorem output_takes_input_shape `{Platform} (o : operator) (w : World)
    (T : Tensor) :
  Inputs w !! dispatch_tensor o = Some T →
  ((arity (class_of o)).1 ≤ length (Inputs w))%nat →
  (1 ≤ length (Outputs w))%nat →
  let w' := (run o w).2.2 in
  dims <$> Outputs w' !! 0%nat = Some (dims T)
  ∧ Inputs w' = Inputs w
  ∧ (meta T ≠ meta_float →
     (run o w).1 = Throw (EnforceNotMet "Unsupported input type")).
Proof.
  intros HT Hin Hout.
  destruct (lookup_lt_is_Some_2 (Outputs w) 0) as [Y HY]; [lia|].
  destruct o as [o|o]; simpl in *.
  - pose proof (LRN_output_shape (Build_state o w) T Y HT HY) as Hs.
    pose proof (LRN_dispatch (Build_state o w) T Y HT HY) as Hd.
    unfold run, on_instance in *. simpl in *.
    destruct (MIOPEN_LRNOP.RunOnDevice _) as [r s'].
    destruct Hs as [? ?]. repeat split; try done.
    intros Hty. rewrite bool_decide_eq_false_2 in Hd by done.
    by simplify_eq.
  - destruct (lookup_lt_is_Some_2 (Inputs w) 0) as [X HX]; [lia|].
    destruct (lookup_lt_is_Some_2 (Inputs w) 1) as [Y' HY']; [lia|].
    pose proof (LRNGradient_output_shape (Build_state o w) X Y' T Y HX HY'
                  HT HY) as Hs.
    pose proof (LRNGradient_dispatch (Build_state o w) X Y' T Y HX HY' HT HY)
      as Hd.
    unfold run, on_instance in *. simpl in *.
    destruct (MIOPENLRNGradientOp.RunOnDevice _) as [r s'].
    destruct Hs as [? ?]. repeat split; try done.
    intros Hty. rewrite bool_decide_eq_false_2 in Hd by done.
    by simplify_eq.
Qed.

Lemma output_takes_input_shape_witness :
  let ints := {| dims := [2; 3; 4; 4]; meta := meta_int32 |} in
  let o := op_LRN Scripted.LRN_op in
  let w := Scripted.a_world [ints] [Scripted.empty_out] [] in
  let w' := (run o w).2.2 in
  (Inputs w !! dispatch_tensor o = Some ints
   ∧ ((arity (class_of o)).1 ≤ length (Inputs w))%nat
   ∧ (1 ≤ length (Outputs w))%nat)
  ∧ dims <$> Outputs w' !! 0%nat = Some (dims ints)
  ∧ Inputs w' = Inputs w
  ∧ (meta ints ≠ meta_float →
     (run o w).1 = Throw (EnforceNotMet "Unsupported input type")).
Proof.
  intros ints o w w'.
  assert ((arity (class_of o)).1 ≤ length (Inputs w))%nat as Hin
    by (simpl; lia).
  assert (1 ≤ length (Outputs w))%nat as Hout by (simpl; lia).
  split; [split; [reflexivity | split; [exact Hin | exact Hout]]|].
  exact (output_takes_input_shape o w ints eq_refl Hin Hout).
Defined.

(** ** The buffers the gradient operator keeps *)

Section Buffers.
Context `{Platform}.

Ltac forget_decisions :=
  repeat match goal with H : decide _ = _ |- _ => clear H end;
  unfold nullptr in *; simplify_eq.

Ltac find_call :=
  repeat first [apply list_elem_of_here | apply list_elem_of_further].

Ltac lazily dst :=
  exec; intros dst; count_calls; forget_decisions;
  unfold allocates_lazily; destruct dst;
  cbn -[times_sizeof_float INT_MAX];
  (split; [let Hin := fresh "Hin" in intros ? Hin; by each_call Hin|]);
  (split; [intros ?; try done; (split; [done|]);
           let Hin := fresh "Hin" in intros ? Hin; by each_call Hin|]);
  (split; [lia|]);
  (let Hin := fresh "Hin" in
   intros ? ? ? Hin;
   repeat (apply elem_of_cons in Hin as [?|Hin]);
   try (by apply elem_of_nil in Hin); simplify_eq;
   (split; [done|]); (split; [done|]);
   first [by eauto | eexists; find_call]).

Lemma LRN_allocates_nothing (s : state MIOPEN_LRNOP.t) :
  let s' := (MIOPEN_LRNOP.RunOnDevice s).2 in
  ∀ dst, allocates_lazily dst (op_LRN (this s)) (world s)
           (op_LRN (this s')) (new_calls s s').
Proof.
  unfold MIOPEN_LRNOP.RunOnDevice, MIOPEN_LRNOP.DoRunWithType.
  lazily dst.
Qed.

Lemma LRNGradient_allocates_lazily (s : state MIOPENLRNGradientOp.t) :
  let s' := (MIOPENLRNGradientOp.RunOnDevice s).2 in
  ∀ dst, allocates_lazily dst (op_LRNGradient (this s)) (world s)
           (op_LRNGradient (this s')) (new_calls s s').
Proof.
  unfold MIOPENLRNGradientOp.RunOnDevice, MIOPENLRNGradientOp.DoRunWithType.
  lazily dst.
Qed.

Ltac on_change :=
  exec; count_calls; forget_decisions; unfold resets_descriptor_on_change;
  simpl_run; (split; [lia|]);
  (let Hin := fresh "Hin" in
   intros ? Hin ?; each_call Hin; simpl_run; by eauto).

Lemma LRN_resets_descriptor_on_change (s : state MIOPEN_LRNOP.t) :
  let s' := (MIOPEN_LRNOP.RunOnDevice s).2 in
  resets_descriptor_on_change (op_LRN (this s)) (world s)
    (op_LRN (this s')) (new_calls s s').
Proof.
  unfold MIOPEN_LRNOP.RunOnDevice, MIOPEN_LRNOP.DoRunWithType. on_change.
Qed.

Lemma LRNGradient_resets_descriptor_on_change
    (s : state MIOPENLRNGradientOp.t) :
  let s' := (MIOPENLRNGradientOp.RunOnDevice s).2 in
  resets_descriptor_on_change (op_LRNGradient (this s)) (world s)
    (op_LRNGradient (this s')) (new_calls s s').
Proof.
  unfold MIOPENLRNGradientOp.RunOnDevice, MIOPENLRNGradientOp.DoRunWithType.
  on_change.
Qed.

Lemma LRNGradient_new_null def w o w' :
  MIOPENLRNGradientOp.new def w = (Ok o, w') →
  MIOPENLRNGradientOp.bwdLRNWs_ o = 0
  ∧ MIOPENLRNGradientOp.bwdLRNScratch_ o = 0.
Proof.
  unfold MIOPENLRNGradientOp.new. intros E. revert E. exec.
  all: by intros [= <- <-].
Qed.

Lemma run_lazy (dst : member) (o : operator) (w : World) :
  let o' := (run o w).2.1 in
  let evs := new_calls w (run o w).2.2 in
  allocates_lazily dst o w o' evs ∧ resets_descriptor_on_change o w o' evs.
Proof.
  destruct o as [o|o]; unfold run, on_instance.
  - pose proof (LRN_allocates_nothing (Build_state o w) dst) as Ha.
    pose proof (LRN_resets_descriptor_on_change (Build_state o w)) as Hd.
    by destruct (MIOPEN_LRNOP.RunOnDevice _).
  - pose proof (LRNGradient_allocates_lazily (Build_state o w) dst) as Ha.
    pose proof (LRNGradient_resets_descriptor_on_change (Build_state o w))
      as Hd.
    by destruct (MIOPENLRNGradientOp.RunOnDevice _).
Qed.

(** A buffer that is there stays for the rest of the life. *)
Lemma life_keeps_buffer (dst : member) (worlds : list World) :
  ∀ o r, kept dst o ≠ 0 → r ∈ life o worlds →
    kept dst (after r).1 = kept dst o
    ∧ ∀ e, e ∈ calls_of r → is_hipMalloc dst e = false.
Proof.
  induction worlds as [|w worlds IH]; intros o r Ho Hr; simpl in Hr.
  { by apply elem_of_nil in Hr. }
  destruct (run_lazy dst o w) as [(_ & Hkeep & _) _].
  destruct (Hkeep Ho) as [Hsame Hnone].
  apply elem_of_cons in Hr as [->|Hr]; [done|].
  destruct (IH (run o w).2.1 r) as [Hk Hn]; [congruence|done|].
  split; [congruence|done].
Qed.

Lemma life_is_lazy (dst : member) (worlds : list World) :
  ∀ o, lazy_for_life dst o worlds.
Proof.
  induction worlds as [|w worlds IH]; intros o; split.
  - intros r Hr. by apply elem_of_nil in Hr.
  - intros i j ri rj _ Hi. by destruct i.
  - intros r Hr. simpl in Hr.
    apply elem_of_cons in Hr as [->|Hr]; [apply run_lazy|].
    by apply (IH (run o w).2.1).
  - intros i j ri rj Hij Hi Hj Hthere. simpl in Hi, Hj.
    destruct j as [|j]; [lia|]. simpl in Hj.
    destruct i as [|i]; simpl in Hi.
    + simplify_eq. simpl in *.
      eapply life_keeps_buffer; [done|]. by eapply list_elem_of_lookup_2.
    + destruct (IH (run o w).2.1) as [_ Hlater].
      eapply (Hlater i j); [lia|done..].
Qed.
End Buffers.

(** C10, as amended.  The workspace and the scratch buffer of a gradient
    operator are null at construction.  A run allocates a buffer only when
    it finds the member null, at most once in the run, with the size that
    run asked for (the result of its own workspace-size query, respectively
    X.size() * sizeof(float) of its own X), and the member then holds what
    [hipMalloc] stored.  No run frees a buffer, and a buffer that is there
    after some run is the same, and is not allocated again, on every later
    run, whatever the input dims.  In both operators a run sets the tensor
    descriptor at most once, and only when the dims of its dispatch tensor
    are not the cached ones, which they are from then on. *)
Theorem buffers_allocated_lazily `{Platform} (c : operator_class)
    (def : OperatorDef) (w w' : World) (o : operator) (dst : member) :
  create c def w = (Ok o, w') →
  kept dst o = 0 ∧ ∀ worlds, lazy_for_life dst o worlds.
Proof.
  intros Hnew. split; [|intros worlds; apply life_is_lazy].
  destruct c; unfold create in Hnew; unfold_monad; case_match; case_match;
    simplify_eq; [done|].
  match goal with
  | E : MIOPENLRNGradientOp.new _ _ = _ |- _ =>
      destruct (LRNGradient_new_null _ _ _ _ E)
  end.
  by destruct dst.
Qed.

Lemma buffers_allocated_lazily_witness :
  let w := Scripted.a_world [] [] [] in
  let o := op_LRNGradient Scripted.gradient_op in
  let w' := (create class_MIOPENLRNGradientOp Scripted.no_args w).2 in
  create class_MIOPENLRNGradientOp Scripted.no_args w = (Ok o, w')
  ∧ kept addr_bwdLRNScratch o = 0
  ∧ ∀ worlds, lazy_for_life addr_bwdLRNScratch o worlds.
Proof.
  intros w o w'.
  assert (create class_MIOPENLRNGradientOp Scripted.no_args w = (Ok o, w'))
    as E by (vm_compute; reflexivity).
  split; [exact E|].
  exact (buffers_allocated_lazily _ _ _ _ _ addr_bwdLRNScratch E).
Defined.

(** C10, as it was stated, fails.  A gradient operator is constructed and run
    twice.  In the first run the workspace-size query returns status 5: the
    run ends in a fatal failure and has allocated nothing.  The second run,
    on smaller tensors, allocates both buffers, the scratch buffer with its
    own 16 bytes and not the 384 of the first run. *)
Lemma allocation_after_a_failed_first_run :
  let o := op_LRNGradient Scripted.gradient_op in
  let worlds := [Scripted.gradient_world [0; 5];
                 Scripted.small_gradient_world] in
  (create class_MIOPENLRNGradientOp Scripted.no_args
     (Scripted.a_world [] [] [])).1 = Ok o
  ∧ (result <$> life o worlds !! 0%nat) = Some (Throw (MIOpenError 5))
  ∧ (List.filter is_hipFree <$> (calls_of <$> life o worlds !! 0%nat))
    = Some []
  ∧ (List.filter (is_hipMalloc addr_bwdLRNScratch)
       <$> (calls_of <$> life o worlds !! 1%nat))
    = Some [call_hipMalloc addr_bwdLRNScratch 16 4352 0]
  ∧ ¬ allocates_on_first_run_only o worlds.
Proof.
  intros o worlds.
  split; [reflexivity|]. split; [reflexivity|]. split; [reflexivity|].
  split; [reflexivity|].
  intros Hfirst.
  assert (∃ r, life o worlds !! 1%nat = Some r ∧ allocates r)
    as (r & Hr & Ha).
  { eexists. split; [reflexivity|].
    exists addr_bwdLRNScratch. vm_compute. reflexivity. }
  specialize (Hfirst _ _ Hr Ha). discriminate Hfirst.
Qed.

(** * The end of a life *)

(** At the end of a path: what the tests of the members say about them. *)
Ltac forget_decisions :=
  repeat match goal with H : decide _ = _ |- _ => clear H end;
  repeat match goal with H : ¬ (_ ≠ _) |- _ => apply dec_stable in H end;
  unfold nullptr in *; simplify_eq.

(** X1.  The destructor of the gradient operator destroys the tensor
    descriptor and then the LRN descriptor.  When both calls return success
    it hands to [hipFree] the workspace and then the scratch buffer, each
    only when its member is not null, goes on whatever [hipFree] returns,
    and leaves both members null.  When a destroy call fails the destructor
    ends in the fatal failure that carries the status: it has freed nothing
    and the members are as they were. *)
Theorem gradient_destructor_frees_what_is_held `{Platform}
    (s : state MIOPENLRNGradientOp.t) :
  gradient_destructor_ends s (MIOPENLRNGradientOp.delete s).1
    (MIOPENLRNGradientOp.delete s).2.
Proof.
  destruct s as [[d norm cached mode size alpha beta bias db ws scratch] w].
  unfold MIOPENLRNGradientOp.delete. exec.
  all: unfold gradient_destructor_ends; count_calls; forget_decisions.
  all: try (eexists; split; [reflexivity|];
            split; [intros ? Hin; by each_call Hin|];
            unfold held, nonnull; simpl; repeat case_decide; simplify_eq;
            done).
  all: (split; [eexists; split; [reflexivity|done]|]).
  all: split; [intros ? Hin; by each_call Hin | done].
Qed.

(** ** From construction to destruction *)

Section Release.
Context `{Platform}.

Ltac stores :=
  exec; count_calls; forget_decisions;
  (split; [done|]); (split; [done|]);
  intros []; unfold nonnull; simpl; repeat case_decide; simplify_eq; done.

Lemma LRN_run_stores (s : state MIOPEN_LRNOP.t) :
  let s' := (MIOPEN_LRNOP.RunOnDevice s).2 in
  let o := op_LRN (this s) in
  let o' := op_LRN (this s') in
  data_desc o' = data_desc o ∧ norm_desc o' = norm_desc o
  ∧ ∀ dst, nonnull (kept dst o) ++ omap (stored dst) (new_calls s s')
           = nonnull (kept dst o').
Proof.
  destruct s as [[d norm cached mode size alpha beta bias] w].
  unfold MIOPEN_LRNOP.RunOnDevice, MIOPEN_LRNOP.DoRunWithType. stores.
Qed.

Lemma LRNGradient_run_stores (s : state MIOPENLRNGradientOp.t) :
  let s' := (MIOPENLRNGradientOp.RunOnDevice s).2 in
  let o := op_LRNGradient (this s) in
  let o' := op_LRNGradient (this s') in
  data_desc o' = data_desc o ∧ norm_desc o' = norm_desc o
  ∧ ∀ dst, nonnull (kept dst o) ++ omap (stored dst) (new_calls s s')
           = nonnull (kept dst o').
Proof.
  destruct s as [[d norm cached mode size alpha beta bias db ws scratch] w].
  unfold MIOPENLRNGradientOp.RunOnDevice, MIOPENLRNGradientOp.DoRunWithType.
  stores.
Qed.

Lemma run_stores (o : operator) (w : World) :
  let o' := (run o w).2.1 in
  data_desc o' = data_desc o ∧ norm_desc o' = norm_desc o
  ∧ ∀ dst, nonnull (kept dst o)
           ++ omap (stored dst) (new_calls w (run o w).2.2)
           = nonnull (kept dst o').
Proof.
  destruct o as [o|o]; unfold run, on_instance.
  - pose proof (LRN_run_stores (Build_state o w)) as Hs.
    by destruct (MIOPEN_LRNOP.RunOnDevice _).
  - pose proof (LRNGradient_run_stores (Build_state o w)) as Hs.
    by destruct (MIOPENLRNGradientOp.RunOnDevice _).
Qed.

(** At any point of a life the operator holds the descriptors it started
    with, and in each member the buffer it started with or, failing that,
    the one address [hipMalloc] has stored there since. *)
Lemma life_stores (worlds : list World) :
  ∀ o,
    let o' := after_life o worlds in
    data_desc o' = data_desc o ∧ norm_desc o' = norm_desc o
    ∧ ∀ dst, nonnull (kept dst o)
             ++ omap (stored dst) (life_calls o worlds)
             = nonnull (kept dst o').
Proof.
  induction worlds as [|w worlds IH]; intros o; simpl.
  { repeat split. intros dst. apply app_nil_r. }
  destruct (run_stores o w) as (Hd & Hn & Hs).
  destruct (IH (run o w).2.1) as (Hd' & Hn' & Hs').
  split; [congruence|]. split; [congruence|].
  intros dst. unfold life_calls. simpl. fold (life_calls (run o w).2.1 worlds).
  rewrite omap_app, (assoc_L (++)).
  unfold calls_of. simpl. by rewrite Hs, Hs'.
Qed.

Lemma create_creates c def w o w' :
  create c def w = (Ok o, w') →
  creates (data_desc o) (norm_desc o) (new_calls w w') ∧ held o = [].
Proof.
  destruct c; unfold create, MIOPEN_LRNOP.new, MIOPENLRNGradientOp.new.
  all: intros E; revert E; exec; intros E; simplify_eq.
  all: count_calls; unfold creates; (split; [|done]).
  all: split; [apply list_elem_of_here|].
  all: apply list_elem_of_further, list_elem_of_here.
Qed.

Lemma destroy_releases (o o' : operator) (w w' : World) :
  destroy o w = (Ok tt, (o', w')) →
  destroys (data_desc o) (norm_desc o) (new_calls w w')
  ∧ omap freed_address (new_calls w w') = device <$> held o.
Proof.
  destruct o as [[d norm cached mode size alpha beta bias]
                |[d norm cached mode size alpha beta bias db ws scratch]];
    unfold destroy, on_instance, MIOPEN_LRNOP.delete,
      MIOPENLRNGradientOp.delete.
  all: exec; intros ?; simplify_eq.
  all: count_calls; forget_decisions; unfold destroys, held, nonnull; simpl.
  all: (split; [eexists; split; [reflexivity|];
                intros ? Hin; by each_call Hin|]).
  all: repeat case_decide; simplify_eq; done.
Qed.
End Release.

(** X2.  Over the whole life of an operator of either class, from its
    construction through any number of runs, failed ones included, to a
    destructor that completes: the two descriptors destroyed are the two
    that construction created, and the addresses handed to [hipFree] are
    exactly the non-null addresses that [hipMalloc] stored in the workspace
    and in the scratch member during the runs, each one once, the workspace
    first. *)
Theorem acquired_resources_are_released `{Platform} (c : operator_class)
    (def : OperatorDef) (w0 w1 wd wd' : World) (o o' : operator)
    (worlds : list World) :
  create c def w0 = (Ok o, w1) →
  destroy (after_life o worlds) wd = (Ok tt, (o', wd')) →
  released o (new_calls w0 w1) (life_calls o worlds) (new_calls wd wd').
Proof.
  intros Hnew Hdel.
  destruct (create_creates _ _ _ _ _ Hnew) as [Hc Hnull].
  destruct (life_stores worlds o) as (Hd & Hn & Hs).
  destruct (destroy_releases _ _ _ _ Hdel) as [Hdestroys Hfreed].
  rewrite Hd, Hn in Hdestroys. split; [done|]. split; [done|].
  rewrite Hfreed. f_equal. unfold held in *.
  apply app_eq_nil in Hnull as [Hws Hscratch].
  pose proof (Hs addr_bwdLRNWs) as H1. pose proof (Hs addr_bwdLRNScratch) as H2.
  rewrite Hws in H1. rewrite Hscratch in H2. simpl in H1, H2.
  by rewrite H1, H2.
Qed.

Lemma acquired_resources_are_released_witness :
  let c := class_MIOPENLRNGradientOp in
  let w0 := Scripted.a_world [] [] [] in
  let o := op_LRNGradient Scripted.gradient_op in
  let w1 := (create c Scripted.no_args w0).2 in
  let worlds := [Scripted.gradient_world []; Scripted.small_gradient_world] in
  let wd := Scripted.a_world [] [] [] in
  let o' := (destroy (after_life o worlds) wd).2.1 in
  let wd' := (destroy (after_life o worlds) wd).2.2 in
  (create c Scripted.no_args w0 = (Ok o, w1)
   ∧ destroy (after_life o worlds) wd = (Ok tt, (o', wd')))
  ∧ released o (new_calls w0 w1) (life_calls o worlds) (new_calls wd wd').
Proof.
  intros c w0 o w1 worlds wd o' wd'.
  assert (create c Scripted.no_args w0 = (Ok o, w1)) as Hnew
    by (vm_compute; reflexivity).
  assert (destroy (after_life o worlds) wd = (Ok tt, (o', wd'))) as Hdel
    by (vm_compute; reflexivity).
  split; [split; [exact Hnew | exact Hdel]|].
  exact (acquired_resources_are_released c Scripted.no_args w0 w1 wd wd' o o'
           worlds Hnew Hdel).
Defined.

(** ** The member [do_backward_] *)

(** X3.  No method of the gradient operator reads the member
    [do_backward_] that its constructor fills from the argument
    "do_backward": [RunOnDevice] and the destructor end with the same
    outcome and in the same world, calls included, whatever its value, and
    leave it as it was. *)
Theorem do_backward_is_never_read `{Platform} :
  ignores_do_backward MIOPENLRNGradientOp.RunOnDevice
  ∧ ignores_do_backward MIOPENLRNGradientOp.delete.
Proof.
  split; intros b [[d norm cached mode size alpha beta bias db ws scratch] w].
  - unfold MIOPENLRNGradientOp.RunOnDevice,
      MIOPENLRNGradientOp.DoRunWithType.
    exec. all: done.
  - unfold MIOPENLRNGradientOp.delete. exec. all: done.
Qed.

(** ** The calls of a run that completes *)

Ltac decided :=
  repeat first
    [ erewrite marshal_shape_lookup by eassumption; simpl_goal
    | match goal with
      | |- context [decide (?a = ?b)] =>
          destruct (decide (a = b)); [|try contradiction]; simpl_goal
      end ];
  by simplify_eq.

(** At the end of a path: the calls made are the ones listed. *)
Ltac sequence :=
  count_calls; forget_decisions;
  unfold LRN_calls, LRNGradient_calls, reshape_calls, allocation_calls,
    gradient_sequence;
  simpl_goal; decided.

(** X4.  A run of the forward operator that completes returns [true] and
    has made these calls and no other: the call that sets the tensor
    descriptor to the four leading dims of X, when the dims of X are not
    the cached ones, and then one call to the forward entry point, from
    the storage of X to the storage of Y, both described by the one
    descriptor, with the flag for the backward pass off and no workspace.
    Both calls returned success. *)
Theorem forward_run_calls `{Platform} (s s' : state MIOPEN_LRNOP.t)
    (b : bool) (X : Tensor) :
  Inputs (world s) !! 0%nat = Some X →
  MIOPEN_LRNOP.RunOnDevice s = (Ok b, s') →
  b = true
  ∧ new_calls s s'
    = LRN_calls (this s) (miopen_handle (context_ (world s))) X.
Proof.
  destruct s as [[d norm cached mode size alpha beta bias] w].
  unfold MIOPEN_LRNOP.RunOnDevice, MIOPEN_LRNOP.DoRunWithType.
  simpl. intros HX E. revert E. exec. all: intros E; simplify_eq.
  all: split; [done|sequence].
Qed.

Lemma forward_run_calls_witness :
  let s := Scripted.LRN_start in
  let s' := (MIOPEN_LRNOP.RunOnDevice s).2 in
  (Inputs (world s) !! 0%nat = Some Scripted.image
   ∧ MIOPEN_LRNOP.RunOnDevice s = (Ok true, s'))
  ∧ true = true
  ∧ new_calls s s' = LRN_calls (this s) 7 Scripted.image.
Proof.
  intros s s'.
  assert (MIOPEN_LRNOP.RunOnDevice s = (Ok true, s')) as E
    by (vm_compute; reflexivity).
  split; [split; [reflexivity | exact E]|].
  exact (forward_run_calls s s' true Scripted.image eq_refl E).
Defined.

(** X5.  A run of the gradient operator that completes returns [true] and
    has made these calls and no other, in this order: the call that sets
    the tensor descriptor to the four leading dims of dY, when the dims of
    dY are not the cached ones; the workspace-size query; one [hipMalloc]
    of the size the query returned, when the workspace member was null;
    one [hipMalloc] of [X.size() * sizeof(float)] bytes, when the scratch
    member was null; the forward call from X into the scratch buffer; the
    backward call into dX.  Every one of them returned success, and the two
    compute calls were handed the buffers the object holds after the
    run. *)
Theorem gradient_run_calls `{Platform} (s s' : state MIOPENLRNGradientOp.t)
    (b : bool) (X dY : Tensor) :
  Inputs (world s) !! 0%nat = Some X →
  Inputs (world s) !! 2%nat = Some dY →
  MIOPENLRNGradientOp.RunOnDevice s = (Ok b, s') →
  b = true
  ∧ ∃ ws_size,
      new_calls s s'
      = LRNGradient_calls (this s) (this s')
          (miopen_handle (context_ (world s))) X dY ws_size.
Proof.
  destruct s as [[d norm cached mode size alpha beta bias db ws scratch] w].
  unfold MIOPENLRNGradientOp.RunOnDevice, MIOPENLRNGradientOp.DoRunWithType.
  simpl. intros HX HdY E. revert E. exec. all: intros E; simplify_eq.
  all: split; [done|eexists; sequence].
Qed.

Lemma gradient_run_calls_witness :
  let s := Scripted.gradient_start in
  let s' := (MIOPENLRNGradientOp.RunOnDevice s).2 in
  (Inputs (world s) !! 0%nat = Some Scripted.image
   ∧ Inputs (world s) !! 2%nat = Some Scripted.image
   ∧ MIOPENLRNGradientOp.RunOnDevice s = (Ok true, s'))
  ∧ true = true
  ∧ ∃ ws_size,
      new_calls s s'
      = LRNGradient_calls (this s) (this s') 7 Scripted.image
          Scripted.image ws_size.
Proof.
  intros s s'.
  assert (MIOPENLRNGradientOp.RunOnDevice s = (Ok true, s')) as E
    by (vm_compute; reflexivity).
  split; [split; [reflexivity | split; [reflexivity | exact E]]|].
  exact (gradient_run_calls s s' true Scripted.image Scripted.image eq_refl
           eq_refl E).
Defined.

(** ** The cached dims *)

Section Cache.
Context `{Platform}.

Ltac cached :=
  exec; simpl_run;
  repeat match goal with
    | H : bool_decide _ = false |- _ => apply bool_decide_eq_false in H
    end;
  forget_decisions; done.

Lemma LRN_caches_dims (s : state MIOPEN_LRNOP.t) X Y :
  Inputs (world s) !! 0%nat = Some X →
  Outputs (world s) !! 0%nat = Some Y →
  meta X = meta_float →
  MIOPEN_LRNOP.miopen_input_dims_ (this (MIOPEN_LRNOP.RunOnDevice s).2)
  = dims X.
Proof.
  destruct s as [[d norm cached mode size alpha beta bias] w].
  unfold MIOPEN_LRNOP.RunOnDevice, MIOPEN_LRNOP.DoRunWithType.
  simpl. intros HX HY Hfloat. cached.
Qed.

Lemma LRNGradient_caches_dims (s : state MIOPENLRNGradientOp.t) X Y dY dX :
  Inputs (world s) !! 0%nat = Some X →
  Inputs (world s) !! 1%nat = Some Y →
  Inputs (world s) !! 2%nat = Some dY →
  Outputs (world s) !! 0%nat = Some dX →
  meta dY = meta_float →
  MIOPENLRNGradientOp.miopen_input_dims_
    (this (MIOPENLRNGradientOp.RunOnDevice s).2)
  = dims dY.
Proof.
  destruct s as [[d norm cached mode size alpha beta bias db ws scratch] w].
  unfold MIOPENLRNGradientOp.RunOnDevice, MIOPENLRNGradientOp.DoRunWithType.
  simpl. intros HX HY HdY HdX Hfloat. cached.
Qed.
End Cache.

(** X6.  [DoRunWithType] stores the dims of its dispatch tensor in
    [miopen_input_dims_] before it marshals them and sets the descriptor.
    So after a run on a float tensor T, whatever the outcome of the run
    (the call that sets the descriptor may have failed), the cached dims
    are those of T, and a later run on a tensor of the same dims does not
    set the descriptor. *)
Theorem dims_are_cached_before_the_descriptor_is_set `{Platform}
    (o o' : operator) (w w' w2 : World) (r : outcome bool) (T T2 : Tensor) :
  Inputs w !! dispatch_tensor o = Some T →
  ((arity (class_of o)).1 ≤ length (Inputs w))%nat →
  (1 ≤ length (Outputs w))%nat →
  meta T = meta_float →
  run o w = (r, (o', w')) →
  Inputs w2 !! dispatch_tensor o = Some T2 →
  dims T2 = dims T →
  cached_dims o' = dims T
  ∧ ∀ e, e ∈ new_calls w2 (run o' w2).2.2 →
         is_Set4dTensorDescriptor e = false.
Proof.
  intros HT Hin Hout Hfloat Hrun HT2 Hdims.
  destruct (lookup_lt_is_Some_2 (Outputs w) 0) as [Y HY]; [lia|].
  assert (cached_dims o' = dims T ∧ dispatch_tensor o' = dispatch_tensor o)
    as [Hcached Hsame].
  { destruct o as [o|o]; simpl in *.
    - pose proof (LRN_caches_dims (Build_state o w) T Y HT HY Hfloat) as Hc.
      unfold run, on_instance in Hrun.
      destruct (MIOPEN_LRNOP.RunOnDevice _) as [r0 s']. by simplify_eq.
    - destruct (lookup_lt_is_Some_2 (Inputs w) 0) as [X HX]; [lia|].
      destruct (lookup_lt_is_Some_2 (Inputs w) 1) as [Y' HY']; [lia|].
      pose proof (LRNGradient_caches_dims (Build_state o w) X Y' T Y HX HY'
                    HT HY Hfloat) as Hc.
      unfold run, on_instance in Hrun.
      destruct (MIOPENLRNGradientOp.RunOnDevice _) as [r0 s'].
      by simplify_eq. }
  split; [done|]. intros e He.
  destruct (is_Set4dTensorDescriptor e) eqn:Hset; [|done].
  destruct (run_lazy addr_bwdLRNWs o' w2) as [_ [_ Hchange]].
  destruct (Hchange e He Hset) as (T' & HT' & Hne & _).
  rewrite Hsame, HT2 in HT'. simplify_eq. congruence.
Qed.

Lemma dims_are_cached_before_the_descriptor_is_set_witness :
  let o := op_LRN Scripted.LRN_op in
  let w := Scripted.a_world [Scripted.image] [Scripted.empty_out] [7] in
  let w2 := Scripted.a_world [Scripted.image] [Scripted.empty_out] [] in
  let o' := (run o w).2.1 in
  let w' := (run o w).2.2 in
  (Inputs w !! dispatch_tensor o = Some Scripted.image
   ∧ ((arity (class_of o)).1 ≤ length (Inputs w))%nat
   ∧ (1 ≤ length (Outputs w))%nat
   ∧ meta Scripted.image = meta_float
   ∧ run o w = (Throw (MIOpenError 7), (o', w'))
   ∧ Inputs w2 !! dispatch_tensor o = Some Scripted.image
   ∧ dims Scripted.image = dims Scripted.image)
  ∧ cached_dims o' = dims Scripted.image
  ∧ ∀ e, e ∈ new_calls w2 (run o' w2).2.2 →
         is_Set4dTensorDescriptor e = false.
Proof.
  intros o w w2 o' w'.
  assert ((arity (class_of o)).1 ≤ length (Inputs w))%nat as Hin
    by (simpl; lia).
  assert (1 ≤ length (Outputs w))%nat as Hout by (simpl; lia).
  assert (run o w = (Throw (MIOpenError 7), (o', w'))) as E
    by (vm_compute; reflexivity).
  split; [repeat split; first [exact Hin | exact Hout | exact E]|].
  exact (dims_are_cached_before_the_descriptor_is_set o o' w w' w2 _
           Scripted.image Scripted.image eq_refl Hin Hout eq_refl E eq_refl
           eq_refl).
Defined.

(** ** The calls a run can make *)

Ltac which_call H :=
  repeat (apply elem_of_cons in H as [?|H]);
  try (by apply elem_of_nil in H); simplify_eq.

(** X7.  The status of [hipMalloc] is checked.  In a run of the gradient
    operator, an allocation that returns a status other than success is the
    last call of the run, the run ends in the fatal failure that carries
    the status, and the member holds whatever the call stored in it. *)
Theorem allocation_failures_are_fatal `{Platform}
    (s : state MIOPENLRNGradientOp.t) :
  let a := MIOPENLRNGradientOp.RunOnDevice s in
  allocations_checked (op_LRNGradient (this a.2)) a.1 (new_calls s a.2).
Proof.
  destruct s as [[d norm cached mode size alpha beta bias db ws scratch] w].
  unfold MIOPENLRNGradientOp.RunOnDevice, MIOPENLRNGradientOp.DoRunWithType.
  exec.
  all: count_calls; forget_decisions; unfold allocations_checked.
  all: intros dst sz out st Hin Hst; which_call Hin; done.
Qed.

Lemma allocation_failures_are_fatal_witness :
  let s := Build_state Scripted.gradient_op
             (Scripted.gradient_world [0; 0; 9]) in
  let a := MIOPENLRNGradientOp.RunOnDevice s in
  let e := call_hipMalloc addr_bwdLRNWs 256 0 9 in
  (e ∈ new_calls s a.2 ∧ 9 ≠ hipSuccess)
  ∧ a.1 = Throw (HIPError 9)
  ∧ last (new_calls s a.2) = Some e
  ∧ kept addr_bwdLRNWs (op_LRNGradient (this a.2)) = 0.
Proof.
  intros s a e.
  assert (new_calls s a.2
          = [call_Set4dTensorDescriptor 16 miopenFloat 2 3 4 4 0;
             call_LRNGetWorkSpaceSize 16 256 0; e]) as Hcalls
    by (vm_compute; reflexivity).
  assert (e ∈ new_calls s a.2) as Hin
    by (rewrite Hcalls; apply list_elem_of_further, list_elem_of_further,
          list_elem_of_here).
  assert (9 ≠ hipSuccess) as Hst by (unfold hipSuccess; lia).
  split; [split; [exact Hin | exact Hst]|].
  exact (allocation_failures_are_fatal s addr_bwdLRNWs 256 0 9 Hin Hst).
Defined.

Section Calls.
Context `{Platform}.

Ltac vocabulary := exec; count_calls; done.

Lemma LRN_run_vocabulary (s : state MIOPEN_LRNOP.t) :
  forallb (run_call (op_LRN (this s)))
          (new_calls s (MIOPEN_LRNOP.RunOnDevice s).2) = true.
Proof.
  unfold MIOPEN_LRNOP.RunOnDevice, MIOPEN_LRNOP.DoRunWithType. vocabulary.
Qed.

Lemma LRNGradient_run_vocabulary (s : state MIOPENLRNGradientOp.t) :
  forallb (run_call (op_LRNGradient (this s)))
          (new_calls s (MIOPENLRNGradientOp.RunOnDevice s).2) = true.
Proof.
  unfold MIOPENLRNGradientOp.RunOnDevice, MIOPENLRNGradientOp.DoRunWithType.
  vocabulary.
Qed.
End Calls.

(** X8.  Whatever its outcome, a run makes no call but these: the forward
    operator sets the tensor descriptor and calls the forward entry point;
    the gradient operator also queries the workspace size, allocates, and
    calls the backward entry point.  No run creates or destroys a
    descriptor, sets the LRN descriptor or frees memory, and the forward
    operator never allocates. *)
Theorem run_makes_no_other_call `{Platform} (o : operator) (w : World) :
  forallb (run_call o) (new_calls w (run o w).2.2) = true.
Proof.
  destruct o as [o|o]; unfold run, on_instance.
  - pose proof (LRN_run_vocabulary (Build_state o w)) as Hv.
    by destruct (MIOPEN_LRNOP.RunOnDevice _).
  - pose proof (LRNGradient_run_vocabulary (Build_state o w)) as Hv.
    by destruct (MIOPENLRNGradientOp.RunOnDevice _).
Qed.

(** ** The call that writes the output *)

Section Last.
Context `{Platform}.

Ltac none_writes Hnone :=
  apply Forall_forall in Hnone;
  repeat (apply Forall_cons in Hnone as [? Hnone]);
  simpl in *; try done;
  rewrite ?written_nullptr; rewrite ?lookup_written_ne by done; done.

Ltac last_call :=
  exec; count_calls; forget_decisions; unfold writes_output_last;
  simpl_goal;
  (split; [let Hin := fresh "Hin" in intros ? Hin ?; which_call Hin; done|]);
  (let Hnone := fresh "Hnone" in intros Hnone; none_writes Hnone).

Lemma LRN_writes_output_last (s : state MIOPEN_LRNOP.t) :
  let s' := (MIOPEN_LRNOP.RunOnDevice s).2 in
  writes_output_last (op_LRN (this s)) (world s) (world s')
    (new_calls s s').
Proof.
  unfold MIOPEN_LRNOP.RunOnDevice, MIOPEN_LRNOP.DoRunWithType. last_call.
Qed.

Lemma LRNGradient_writes_output_last (s : state MIOPENLRNGradientOp.t) :
  let s' := (MIOPENLRNGradientOp.RunOnDevice s).2 in
  writes_output_last (op_LRNGradient (this s)) (world s) (world s')
    (new_calls s s').
Proof.
  unfold MIOPENLRNGradientOp.RunOnDevice, MIOPENLRNGradientOp.DoRunWithType.
  last_call.
Qed.
End Last.

(** X9.  The storage of the output tensor is written by one call only, the
    last of the run: the forward call of the forward operator, the backward
    call of the gradient operator.  A run that ends before that call leaves
    the storage of the output as it was. *)
Theorem output_is_written_by_the_last_call `{Platform} (o : operator)
    (w : World) :
  let w' := (run o w).2.2 in
  writes_output_last o w w' (new_calls w w').
Proof.
  destruct o as [o|o]; unfold run, on_instance.
  - pose proof (LRN_writes_output_last (Build_state o w)) as Hl.
    by destruct (MIOPEN_LRNOP.RunOnDevice _).
  - pose proof (LRNGradient_writes_output_last (Build_state o w)) as Hl.
    by destruct (MIOPENLRNGradientOp.RunOnDevice _).
Qed.

(** ** The shapes of X and Y *)

(** X10.  The gradient operator does not compare the shapes of its inputs.
    Of X it reads the number of elements, of Y nothing but the storage: run
    on another X with as many elements and on another Y, of the same
    element types, it ends with the same outcome, the same object, the same
    calls, device memory and outputs. *)
Theorem shapes_of_X_and_Y_are_not_compared `{Platform}
    (s : state MIOPENLRNGradientOp.t) (X Y dY X' Y' : Tensor)
    (rest : list Tensor) :
  Inputs (world s) = X :: Y :: dY :: rest →
  meta X' = meta X → meta Y' = meta Y →
  foldr Z.mul 1 (dims X') = foldr Z.mul 1 (dims X) →
  same_run
    (MIOPENLRNGradientOp.RunOnDevice s)
    (MIOPENLRNGradientOp.RunOnDevice
       (Build_state (this s)
          (set_Inputs (X' :: Y' :: dY :: rest) (world s)))).
Proof.
  destruct s as [[d norm cached mode size alpha beta bias db ws scratch]
                 [ins outs m l tr ctx]].
  destruct X as [dx tx], X' as [dx' tx'].
  simpl. intros -> _ _ Hsize. unfold same_run, set_Inputs.
  unfold MIOPENLRNGradientOp.RunOnDevice, MIOPENLRNGradientOp.DoRunWithType.
  unfold_library; unfold_framework; unfold_monad.
  repeat (progress simpl_goal || rewrite Hsize || split_goal).
  all: done.
Qed.

Lemma shapes_of_X_and_Y_are_not_compared_witness :
  let s := Scripted.gradient_start in
  let X' := {| dims := [96]; meta := meta_float |} in
  let Y' := {| dims := []; meta := meta_float |} in
  (Inputs (world s) = [Scripted.image; Scripted.image; Scripted.image]
   ∧ meta X' = meta Scripted.image ∧ meta Y' = meta Scripted.image
   ∧ foldr Z.mul 1 (dims X') = foldr Z.mul 1 (dims Scripted.image))
  ∧ same_run
      (MIOPENLRNGradientOp.RunOnDevice s)
      (MIOPENLRNGradientOp.RunOnDevice
         (Build_state (this s)
            (set_Inputs [X'; Y'; Scripted.image] (world s)))).
Proof.
  intros s X' Y'.
  split; [repeat split|].
  exact (shapes_of_X_and_Y_are_not_compared s Scripted.image Scripted.image
           Scripted.image X' Y' [] eq_refl eq_refl eq_refl eq_refl).
Defined.

(** ** The steady state *)

Section Steady.
Context `{Platform}.

Ltac steady := exec; count_calls; forget_decisions; done.

Lemma LRN_steady (s : state MIOPEN_LRNOP.t) X :
  Inputs (world s) !! 0%nat = Some X →
  dims X = MIOPEN_LRNOP.miopen_input_dims_ (this s) →
  let s' := (MIOPEN_LRNOP.RunOnDevice s).2 in
  this s' = this s ∧ forallb is_entry_point (new_calls s s') = true.
Proof.
  destruct s as [[d norm cached mode size alpha beta bias] w].
  destruct X as [dx tx].
  unfold MIOPEN_LRNOP.RunOnDevice, MIOPEN_LRNOP.DoRunWithType.
  simpl. intros HX ->. steady.
Qed.

Lemma LRNGradient_steady (s : state MIOPENLRNGradientOp.t) dY :
  Inputs (world s) !! 2%nat = Some dY →
  dims dY = MIOPENLRNGradientOp.miopen_input_dims_ (this s) →
  MIOPENLRNGradientOp.bwdLRNWs_ (this s) ≠ 0 →
  MIOPENLRNGradientOp.bwdLRNScratch_ (this s) ≠ 0 →
  let s' := (MIOPENLRNGradientOp.RunOnDevice s).2 in
  this s' = this s ∧ forallb is_entry_point (new_calls s s') = true.
Proof.
  destruct s as [[d norm cached mode size alpha beta bias db ws scratch] w].
  destruct dY as [dy ty].
  unfold MIOPENLRNGradientOp.RunOnDevice, MIOPENLRNGradientOp.DoRunWithType.
  simpl. intros HdY -> Hws Hscratch. steady.
Qed.
End Steady.

(** X11.  An operator that has cached the dims of its dispatch tensor and,
    for the gradient, holds both buffers, is in a steady state: a run,
    whatever its outcome, leaves the object as it was and makes no call but
    to the entry points of the computation. *)
Theorem steady_run_changes_nothing `{Platform} (o : operator) (w : World)
    (T : Tensor) :
  Inputs w !! dispatch_tensor o = Some T →
  dims T = cached_dims o →
  has_buffers o = true →
  (run o w).2.1 = o
  ∧ forallb is_entry_point (new_calls w (run o w).2.2) = true.
Proof.
  intros HT Hdims Hbuf. destruct o as [o|o]; unfold run, on_instance.
  - pose proof (LRN_steady (Build_state o w) T HT Hdims) as Hs.
    destruct (MIOPEN_LRNOP.RunOnDevice _). simpl in *.
    destruct Hs as [-> ?]. done.
  - simpl in Hbuf.
    apply andb_true_iff in Hbuf as [Hws%negb_true_iff%Z.eqb_neq
                                    Hscratch%negb_true_iff%Z.eqb_neq].
    pose proof (LRNGradient_steady (Build_state o w) T HT Hdims Hws Hscratch)
      as Hs.
    destruct (MIOPENLRNGradientOp.RunOnDevice _). simpl in *.
    destruct Hs as [-> ?]. done.
Qed.

Lemma steady_run_changes_nothing_witness :
  let w := Scripted.gradient_world [] in
  let o := after_life (op_LRNGradient Scripted.gradient_op) [w] in
  (Inputs w !! dispatch_tensor o = Some Scripted.image
   ∧ dims Scripted.image = cached_dims o
   ∧ has_buffers o = true)
  ∧ (run o w).2.1 = o
  ∧ forallb is_entry_point (new_calls w (run o w).2.2) = true.
Proof.
  intros w o.
  assert (Inputs w !! dispatch_tensor o = Some Scripted.image) as HT
    by (vm_compute; reflexivity).
  assert (dims Scripted.image = cached_dims o) as Hdims
    by (vm_compute; reflexivity).
  assert (has_buffers o = true) as Hbuf by (vm_compute; reflexivity).
  split; [split; [exact HT | split; [exact Hdims | exact Hbuf]]|].
  exact (steady_run_changes_nothing o w Scripted.image HT Hdims Hbuf).
Defined.
